(** * control.matlab: margin, dcgain, damp and c2d

    A shallow embedding of the four MATLAB-compatibility wrappers of
    [control/matlab/__init__.py] and the properties the specification states
    about them.

    Numbers.  The Python code computes with IEEE doubles.  Two embeddings of
    the matrix operations of numpy are given: on exact rationals ([Q],
    compared with [==]), the arithmetic that the code approximates, and on
    doubles (binary64), the arithmetic that the code performs.  [dcgain] is
    stated over any such numpy; what depends on rounding, whether a pivot is
    exactly zero in particular, is stated on doubles.

    Imports.  The wrappers delegate to functions of other modules of the
    package ([ss], [tf2ss], [sample_system], [_convertToStateSpace], the
    [damp] method of LTI objects) and of SciPy ([zpk2ss]).  These are the
    fields of the class [Imports]; the wrappers are defined once, over any
    implementation of it. *)

From Corelib Require Import PrimFloat.
From Stdlib Require Import SpecFloat FloatOps.
From Stdlib Require Import Ascii String DecimalString.
From Stdlib Require Import QArith Qabs Qround ZArith List Bool Lia Lqa.
Import ListNotations.
Open Scope Q_scope.

(* ------------------------------------------------------------------ *)
(** ** Python values, exceptions *)

(** Exceptions the wrappers raise or let through. *)
Inductive exn : Type :=
| ValueError (msg : string)
| LinAlgError (msg : string)
| IndexError (msg : string)
| TypeError (msg : string)
| AttributeError (msg : string)
| NotImplementedError (msg : string)
| NameError (msg : string)
| OtherError (cls msg : string).

(** A call either returns a value or raises. *)
Inductive result (A : Type) : Type :=
| Ok (a : A)
| Raise (e : exn).
Arguments Ok {A} a.
Arguments Raise {A} e.

Definition bind {A B : Type} (r : result A) (k : A -> result B) : result B :=
  match r with
  | Ok a => k a
  | Raise e => Raise e
  end.

Notation "x <- c ;; k" := (bind c (fun x => k))
  (at level 61, c at next level, right associativity).
Notation "' p <- c ;; k" := (bind c (fun x => let p := x in k))
  (at level 61, p pattern, c at next level, right associativity).

Definition is_ok {A : Type} (r : result A) : bool :=
  match r with Ok _ => true | Raise _ => false end.

(** The error taxonomy of the specification (section 7). *)
Inductive spec_error : Type :=
| IncompatibleShapeError
| SingularConversionError
| UnsupportedShapeError
| NotImplemented
| InvalidArgumentError
| NumericalNonconvergenceError.

(** The kind of the taxonomy a Python exception stands for: section 7
    describes the kinds without naming Python classes (wrong arity or
    lengths: [ValueError]; a matrix inverse that does not exist: numpy's
    [LinAlgError]). *)
Definition error_class (e : exn) : option spec_error :=
  match e with
  | ValueError _ => Some InvalidArgumentError
  | LinAlgError _ => Some SingularConversionError
  | NotImplementedError _ => Some NotImplemented
  | _ => None
  end.

(** [%i] of a length. *)
Definition format_i (n : nat) : string := NilZero.string_of_uint (Nat.to_uint n).

(* ------------------------------------------------------------------ *)
(** ** Matrices (numpy.matrix over exact rationals) *)

Definition vec : Type := list Q.

(** A two-dimensional array: numpy keeps the shape with the data, so a
    matrix with no row still has a column count. *)
Record matrix : Type := Matrix { ncols : nat; mrows : list vec }.

Definition nrows (m : matrix) : nat := length (mrows m).

Definition wf_matrix (m : matrix) : bool :=
  forallb (fun r => Nat.eqb (length r) (ncols m)) (mrows m).

Definition is_zero (x : Q) : bool := Qeq_bool x 0.

Fixpoint vadd (a b : vec) : vec :=
  match a, b with
  | x :: a', y :: b' => (x + y) :: vadd a' b'
  | _, _ => []
  end.

Fixpoint vsub (a b : vec) : vec :=
  match a, b with
  | x :: a', y :: b' => (x - y) :: vsub a' b'
  | _, _ => []
  end.

Definition vscale (c : Q) (a : vec) : vec := map (Qmult c) a.

Fixpoint dot (a b : vec) : Q :=
  match a, b with
  | x :: a', y :: b' => x * y + dot a' b'
  | _, _ => 0
  end.

(** [lincomb c cs vs] is the combination [sum_i cs_i * vs_i] of vectors of
    width [c]: a row vector times a matrix given by its rows. *)
Fixpoint lincomb (c : nat) (cs : vec) (vs : list vec) : vec :=
  match cs, vs with
  | x :: cs', v :: vs' => vadd (vscale x v) (lincomb c cs' vs')
  | _, _ => repeat 0 c
  end.

(** Matrix product [a * b] of numpy matrices; misaligned shapes raise. *)
Definition mmul (a b : matrix) : result matrix :=
  if Nat.eqb (ncols a) (nrows b)
  then Ok (Matrix (ncols b) (map (fun r => lincomb (ncols b) r (mrows b)) (mrows a)))
  else Raise (ValueError "shapes not aligned").

(** Broadcasting of one dimension: equal, or one of them is 1. *)
Definition bdim (a b : nat) : option nat :=
  if Nat.eqb a b then Some a
  else if Nat.eqb a 1 then Some b
  else if Nat.eqb b 1 then Some a
  else None.

Definition stretch {A : Type} (n : nat) (l : list A) : list A :=
  match l with
  | [x] => repeat x n
  | _ => l
  end.

Definition broadcast (r c : nat) (m : matrix) : list vec :=
  stretch r (map (stretch c) (mrows m)).

Fixpoint map2 {A B C : Type} (f : A -> B -> C) (l : list A) (l' : list B) : list C :=
  match l, l' with
  | x :: t, y :: t' => f x y :: map2 f t t'
  | _, _ => []
  end.

(** Elementwise [a - b], with numpy's broadcasting. *)
Definition msub (a b : matrix) : result matrix :=
  match bdim (nrows a) (nrows b), bdim (ncols a) (ncols b) with
  | Some r, Some c => Ok (Matrix c (map2 vsub (broadcast r c a) (broadcast r c b)))
  | _, _ => Raise (ValueError "operands could not be broadcast together")
  end.

(** *** Inverse by elimination, in exact arithmetic

    [numpy.linalg.inv] solves [a x = 1] through LAPACK's LU factorisation and
    raises [LinAlgError] when a pivot is exactly zero.  This is the inverse
    without rounding: over exact rationals the choice of the pivot row does
    not change the answer, the first row with a non-zero entry is taken, and
    a pivot is missing exactly when the matrix is singular.  The inverse as
    the code computes it, on doubles, is [finv] below.  Rows are kept
    augmented, [(left, right)], the right part starting as the identity. *)
Definition arow : Type := (vec * vec)%type.

Definition lead (r : arow) : Q := hd 0 (fst r).

Fixpoint find_pivot (rows : list arow) : option (arow * list arow) :=
  match rows with
  | [] => None
  | r :: rest =>
      if is_zero (lead r)
      then match find_pivot rest with
           | Some (p, others) => Some (p, r :: others)
           | None => None
           end
      else Some (r, rest)
  end.

Definition scale_row (c : Q) (r : arow) : arow :=
  (vscale c (fst r), vscale c (snd r)).

Definition sub_row (r p : arow) : arow :=
  (vsub (fst r) (fst p), vsub (snd r) (snd p)).

Definition drop_col (r : arow) : arow := (tl (fst r), snd r).

(** Clear the leading column of [r] with the normalised pivot row [p1]. *)
Definition reduce (p1 r : arow) : arow :=
  drop_col (sub_row r (scale_row (lead r) p1)).

(** Forward elimination over [n] columns.  The result is upper triangular
    with a unit diagonal, each row stored without its leading 1 and the zeros
    before it. *)
Fixpoint eliminate (n : nat) (rows : list arow) : option (list arow) :=
  match n with
  | O => Some []
  | S k =>
      match find_pivot rows with
      | None => None
      | Some (p, others) =>
          let p1 := scale_row (/ lead p) p in
          match eliminate k (map (reduce p1) others) with
          | None => None
          | Some tri => Some (drop_col p1 :: tri)
          end
      end
  end.

(** Back substitution on the triangular system. *)
Fixpoint back_subst (n : nat) (tri : list arow) : list vec :=
  match tri with
  | [] => []
  | (pl, pr) :: rest =>
      let xs := back_subst n rest in
      vsub pr (lincomb n pl xs) :: xs
  end.

Fixpoint unit_vec (n i : nat) : vec :=
  match n with
  | O => []
  | S n' => match i with
            | O => 1 :: repeat 0 n'
            | S i' => 0 :: unit_vec n' i'
            end
  end.

Definition identity (n : nat) : list vec := map (unit_vec n) (seq 0 n).

Definition inv (a : matrix) : result matrix :=
  let n := nrows a in
  match eliminate n (combine (mrows a) (identity n)) with
  | Some tri => Ok (Matrix n (back_subst n tri))
  | None => Raise (LinAlgError "Singular matrix")
  end.

(** The [I] attribute of a numpy matrix: the inverse of a square matrix, the
    pseudo-inverse [pinv] (an import) of any other. *)
Definition getI (pinv : matrix -> result matrix) (a : matrix) : result matrix :=
  if Nat.eqb (nrows a) (ncols a) then inv a else pinv a.

(* ------------------------------------------------------------------ *)
(** ** Systems and Python objects *)

(** State-space system: the matrices and the sample time ([None] for a
    continuous system). *)
Record StateSpace : Type := mkSS {
  ssA : matrix;
  ssB : matrix;
  ssC : matrix;
  ssD : matrix;
  ss_dt : option Q
}.

(** Transfer function: numerator and denominator coefficients for every
    (output, input) pair, highest power first. *)
Record TransferFunction : Type := mkTF {
  tf_num : list (list (list Q));
  tf_den : list (list (list Q));
  tf_dt : option Q
}.

Inductive LTI : Type :=
| SS (s : StateSpace)
| TF (t : TransferFunction).

(** The values that reach the wrappers. *)
#[warnings="-register-all"]
Inductive pyobj : Type :=
| PyNone
| PyNum (q : Q)
| PyStr (s : string)
| PySeq (xs : list Q)
| PyMat (m : matrix)
| PyLTI (s : LTI)
| PyTuple (xs : list pyobj).

(** [isinstance(o, StateSpace)] *)
Definition isinstance_StateSpace (o : pyobj) : bool :=
  match o with
  | PyLTI (SS _) => true
  | _ => false
  end.

Record complex : Type := Complex { real : Q; imag : Q }.

(** A float or one of the sentinels of IEEE arithmetic. *)
Inductive xnum : Type :=
| Fin (q : Q)
| Inf
| NaN.

(** One line written by [print]: the format string and the values it is
    applied to (the rendering of a float by [%10.4g] is not modelled). *)
Definition line : Type := (string * list Q)%type.

(** What the module imports from the rest of the package, numpy and SciPy. *)
Class Imports : Type := {
  (** [ss], called with the argument list, of [control.statesp] *)
  ss : list pyobj -> result StateSpace;
  (** [scipy.signal.zpk2ss(Z, P, k)], returning [(A, B, C, D)] *)
  zpk2ss : pyobj -> pyobj -> pyobj -> result (pyobj * pyobj * pyobj * pyobj);
  (** [tf2ss(num, den)] of [control.statesp] *)
  tf2ss : pyobj -> pyobj -> result StateSpace;
  (** [numpy.linalg.pinv] *)
  pinv : matrix -> result matrix;
  (** the [damp] method of an LTI object *)
  lti_damp : LTI -> result (list Q * list Q * list complex);
  (** [sample_system(sysc, Ts, method)] of [control.dtime] *)
  sample_system : pyobj -> pyobj -> pyobj -> result pyobj;
  (** [_convertToStateSpace(sys)] of [control.statesp] *)
  _convertToStateSpace : pyobj -> result pyobj;
  (** frequency response of a system on a grid dense enough to resolve the
      crossovers: magnitudes, phases in degrees, frequencies *)
  freqresp : LTI -> result (list Q * list Q * list Q);
  (** entries 2 and 5 of the tuple of [stability_margins], which [margin]
      does not read *)
  sensitivity_margin : list Q -> list Q -> list Q -> xnum * xnum
}.

(* ------------------------------------------------------------------ *)
(** ** dcgain *)

(** [gain = sys.D - sys.C * sys.A.I * sys.B] *)
Definition gain_of `{Imports} (sys : StateSpace) : result matrix :=
  ai <- getI pinv (ssA sys) ;;
  cai <- mmul (ssC sys) ai ;;
  caib <- mmul cai (ssB sys) ;;
  msub (ssD sys) caib.

(** The conversion of the parameters to state space form, by their count. *)
Definition dcgain_convert `{Imports} (args : list pyobj) : result StateSpace :=
  match args with
  | [A; B; C; D] => ss [A; B; C; D]
  | [Z; P; k] =>
      '(A, B, C, D) <- zpk2ss Z P k ;;
      ss [A; B; C; D]
  | [num; den] => tf2ss num den
  | [sys] => ss [sys]
  | _ => Raise (ValueError
           "Function ``dcgain`` needs either 1, 2, 3 or 4 arguments.")
  end.

Definition dcgain `{Imports} (args : list pyobj) : result matrix :=
  sys <- dcgain_convert args ;;
  gain_of sys.

(* ------------------------------------------------------------------ *)
(** ** stability_margins *)

Definition Qltb (x y : Q) : bool := negb (Qle_bool y x).

Record sample : Type := Sample { s_w : Q; s_mag : Q; s_phase : Q }.

(** A crossover between two consecutive samples: the interpolated frequency
    and the interpolated value of the other quantity there. *)
Record crossing : Type := Crossing { c_w : Q; c_val : Q }.

(** Modelled from the spec: phase unwrapping ([control.ctrlutil.unwrap] is
    not part of the sources at hand): each step between consecutive phases is
    brought into [-180, 180) by a multiple of 360 degrees, so that the phase
    is continuous rather than wrapped. *)
Definition wrap180 (d : Q) : Q :=
  d - 360 * inject_Z (Qfloor ((d + 180) / 360)).

Fixpoint unwrap_from (raw un : Q) (ps : list Q) : list Q :=
  match ps with
  | [] => []
  | p :: ps' =>
      let u := un + wrap180 (p - raw) in
      u :: unwrap_from p u ps'
  end.

Definition unwrap (ps : list Q) : list Q :=
  match ps with
  | [] => []
  | p :: ps' => p :: unwrap_from p p ps'
  end.

Fixpoint samples (mag phase w : list Q) : list sample :=
  match mag, phase, w with
  | m :: mag', p :: phase', x :: w' => Sample x m p :: samples mag' phase' w'
  | _, _, _ => []
  end.

Definition interpolate (t a b : Q) : Q := a + t * (b - a).

(** The 360-degree band [-180 + 360 k, 180 + 360 k) a phase lies in. *)
Definition band (phi : Q) : Z := Qfloor ((phi + 180) / 360).

(** Modelled from the spec: [control.margins.stability_margins] is not part
    of the sources at hand; what follows is the algorithm of section 4.3.
    Step 1: two consecutive samples whose (unwrapped) phases lie in different
    bands have a crossing of -180 degrees (mod 360) between them; frequency
    and magnitude are interpolated linearly at the crossing. *)
Definition phase_cross (s1 s2 : sample) : option crossing :=
  let b1 := band (s_phase s1) in
  let b2 := band (s_phase s2) in
  if Z.eqb b1 b2 then None
  else
    let level := 360 * inject_Z (Z.max b1 b2) - 180 in
    let t := (level - s_phase s1) / (s_phase s2 - s_phase s1) in
    Some (Crossing (interpolate t (s_w s1) (s_w s2))
                   (interpolate t (s_mag s1) (s_mag s2))).

(** Modelled from the spec: step 2 of section 4.3, two consecutive samples
    whose magnitudes lie on different sides of 1; frequency and phase are
    interpolated linearly at unit gain. *)
Definition gain_cross (s1 s2 : sample) : option crossing :=
  if Bool.eqb (Qle_bool 1 (s_mag s1)) (Qle_bool 1 (s_mag s2)) then None
  else
    let t := (1 - s_mag s1) / (s_mag s2 - s_mag s1) in
    Some (Crossing (interpolate t (s_w s1) (s_w s2))
                   (interpolate t (s_phase s1) (s_phase s2))).

(** The scan over consecutive samples. *)
Fixpoint scan (f : sample -> sample -> option crossing) (l : list sample)
  : list crossing :=
  match l with
  | [] => []
  | s1 :: rest =>
      match rest with
      | [] => []
      | s2 :: _ =>
          match f s1 s2 with
          | Some c => c :: scan f rest
          | None => scan f rest
          end
      end
  end.

(** [1 / m] as floats compute it. *)
Definition xinv (m : Q) : xnum := if is_zero m then Inf else Fin (/ m).

Definition xltb (a b : xnum) : bool :=
  match a, b with
  | Fin x, Fin y => Qltb x y
  | Fin _, Inf => true
  | _, _ => false
  end.

(** Modelled from the spec: step 3 of section 4.3, the margin each crossing
    yields, paired with the frequency of the crossing. *)
Definition gain_margins (data : list sample) : list (xnum * Q) :=
  map (fun c => (xinv (c_val c), c_w c)) (scan phase_cross data).

Definition phase_margins (data : list sample) : list (xnum * Q) :=
  map (fun c => (Fin (180 + c_val c), c_w c)) (scan gain_cross data).

(** Modelled from the spec: step 4 of section 4.3, the candidate with the
    lowest margin; of two candidates with the same margin the earlier one,
    that is the one at the lower frequency, is kept (section 9). *)
Fixpoint worst (cands : list (xnum * Q)) : option (xnum * Q) :=
  match cands with
  | [] => None
  | c :: rest =>
      match worst rest with
      | Some b => if xltb (fst b) (fst c) then Some b else Some c
      | None => Some c
      end
  end.

(** Modelled from the spec: step 5 of section 4.3, no crossing gives an
    infinite margin and no frequency. *)
Definition select (cands : list (xnum * Q)) : xnum * xnum :=
  match worst cands with
  | Some (m, w) => (m, Fin w)
  | None => (Inf, NaN)
  end.

(** Modelled from the spec: the tuple [stability_margins] returns.  [margin]
    reads entries 0, 1, 4 and 3 and documents them as the gain margin, the
    phase margin, the gain crossover frequency (the one of the phase margin)
    and the phase crossover frequency (the one of the gain margin).  Arrays
    of different lengths are refused (section 4.3, Failure). *)
Definition margins_of_data `{Imports} (mag phase w : list Q) : result (list xnum) :=
  if Nat.eqb (length mag) (length phase) && Nat.eqb (length phase) (length w)
  then
    let data := samples mag (unwrap phase) w in
    let '(gm, wg) := select (gain_margins data) in
    let '(pm, wp) := select (phase_margins data) in
    let '(sm, ws) := sensitivity_margin mag phase w in
    Ok [gm; pm; sm; wg; wp; ws]
  else Raise (ValueError "mag, phase and w must have the same length").

(** Modelled from the spec: the two call shapes of section 4.3, a system,
    whose frequency response is evaluated first, or the triple of magnitude,
    phase and frequency arrays. *)
Definition stability_margins `{Imports} (sysdata : pyobj) : result (list xnum) :=
  match sysdata with
  | PyLTI s =>
      '(mag, phase, w) <- freqresp s ;;
      margins_of_data mag phase w
  | PyTuple [PySeq mag; PySeq phase; PySeq w] => margins_of_data mag phase w
  | _ => Raise (TypeError "stability_margins: system or (mag, phase, w) expected")
  end.

(* ------------------------------------------------------------------ *)
(** ** margin *)

(** [t[i]] on a tuple. *)
Definition getitem {A : Type} (t : list A) (i : nat) : result A :=
  match nth_error t i with
  | Some x => Ok x
  | None => Raise (IndexError "tuple index out of range")
  end.

Definition margin `{Imports} (args : list pyobj)
  : result (xnum * xnum * xnum * xnum) :=
  margin <- match args with
            | [sys] => stability_margins sys
            | [_; _; _] => stability_margins (PyTuple args)
            | _ => Raise (ValueError
                     ("Margin needs 1 or 3 arguments; received "
                        ++ format_i (length args) ++ "."))
            end ;;
  m0 <- getitem margin 0 ;;
  m1 <- getitem margin 1 ;;
  m4 <- getitem margin 4 ;;
  m3 <- getitem margin 3 ;;
  Ok (m0, m1, m4, m3).

(* ------------------------------------------------------------------ *)
(** ** damp *)

(** A computation that may raise and that writes lines to standard output:
    it takes the output so far and returns it extended. *)
Definition IO (A : Type) : Type := list line -> result A * list line.

Definition io_ret {A : Type} (a : A) : IO A := fun out => (Ok a, out).

Definition io_bind {A B : Type} (m : IO A) (k : A -> IO B) : IO B :=
  fun out =>
    match m out with
    | (Ok a, out') => k a out'
    | (Raise e, out') => (Raise e, out')
    end.

Definition io_lift {A : Type} (r : result A) : IO A := fun out => (r, out).

Definition print (l : line) : IO unit := fun out => (Ok tt, out ++ [l]).

Fixpoint io_for {A : Type} (xs : list A) (body : A -> IO unit) : IO unit :=
  match xs with
  | [] => io_ret tt
  | x :: xs' => io_bind (body x) (fun _ => io_for xs' body)
  end.

Fixpoint zip3 {A B C : Type} (a : list A) (b : list B) (c : list C)
  : list (A * B * C) :=
  match a, b, c with
  | x :: a', y :: b', z :: c' => (x, y, z) :: zip3 a' b' c'
  | _, _, _ => []
  end.

Definition header : string := "_____Eigenvalue______ Damping___ Frequency_".
Definition fmt_real : string := "%10.4g            %10.4g %10.4g".
Definition fmt_complex : string := "%10.4g%+10.4gj %10.4g %10.4g".

(** The threshold [1e-12] under which an imaginary part counts as zero: the
    literal is a double, 4951760157141521 * 2^-92, a little below 10^-12. *)
Definition eps : Q := 4951760157141521 # 4951760157141521099596496896.

(** The body of the printing loop for one pole. *)
Definition damp_row (row : complex * Q * Q) : line :=
  let '(p, d, w) := row in
  if Qltb (Qabs (imag p)) eps
  then (fmt_real, [real p; 1; - real p])
  else (fmt_complex, [real p; imag p; d; w]).

(** The name of the type of an object, as error messages show it. *)
Definition type_name (o : pyobj) : string :=
  match o with
  | PyNone => "NoneType"
  | PyNum _ => "float"
  | PyStr _ => "str"
  | PySeq _ => "list"
  | PyMat _ => "matrix"
  | PyLTI (SS _) => "StateSpace"
  | PyLTI (TF _) => "TransferFunction"
  | PyTuple _ => "tuple"
  end.

(** [sys.damp()] *)
Definition call_damp `{Imports} (sys : pyobj)
  : result (list Q * list Q * list complex) :=
  match sys with
  | PyLTI s => lti_damp s
  | _ => Raise (AttributeError
           ("'" ++ type_name sys ++ "' object has no attribute 'damp'"))
  end.

Definition damp `{Imports} (sys : pyobj) (doprint : bool)
  : IO (list Q * list Q * list complex) :=
  io_bind (io_lift (call_damp sys)) (fun '(wn, damping, poles) =>
  io_bind (if doprint
           then io_bind (print (header, [])) (fun _ =>
                io_for (zip3 poles damping wn) (fun row => print (damp_row row)))
           else io_ret tt) (fun _ =>
  io_ret (wn, damping, poles))).

(** The values [damp] returns and the lines it prints, from an empty output. *)
Definition damp_value `{Imports} (sys : pyobj) (doprint : bool) :=
  fst (damp sys doprint []).


(* ------------------------------------------------------------------ *)
(** ** The names the module binds *)

(** The statements of the module that bind global names: an import of
    listed names (or a [def]) binds those names; [from m import *] binds the
    public names of [m], which are those that do not begin with an
    underscore. *)
Inductive binding : Type :=
| Names (names : list string)
| Star (module : string).

Open Scope string_scope.

Definition module_bindings : list binding :=
  [ Names ["sp"; "np"; "re"; "deepcopy"];
    Names ["zpk2ss"; "ss2zpk"; "tf2zpk"; "zpk2tf"];
    Names ["linspace"; "logspace"];
    Star "..statesp"; Star "..xferfcn"; Star "..lti"; Star "..frdata";
    Names ["sample_system"];
    Names ["ControlArgument"];
    Names ["unwrap"];
    Names ["nyquist"; "gangof4"];
    Names ["nichols"; "nichols_grid"];
    Names ["series"; "parallel"; "negate"; "feedback"; "append"; "connect"];
    Names ["pzmap"];
    Names ["ctrb"; "obsv"; "gram"; "place"; "lqr"];
    Names ["pade"];
    Names ["hsvd"; "balred"; "modred"; "minreal"];
    Names ["lyap"; "dlyap"; "dare"; "care"];
    Star ".timeresp"; Star ".plots";
    Names ["stability_margins"];
    Names ["margin"; "dcgain"; "damp"; "c2d"] ].

Close Scope string_scope.

Definition underscore_name (name : string) : bool :=
  match name with
  | String c _ => Ascii.eqb c "_"
  | EmptyString => false
  end.

Definition may_bind (name : string) (b : binding) : bool :=
  match b with
  | Names names => existsb (String.eqb name) names
  | Star _ => negb (underscore_name name)
  end.

Definition name_bound (name : string) : bool :=
  existsb (may_bind name) module_bindings.

(** The value of a global name when the function that uses it runs: the
    object [value] the package holds under this name, if some statement of
    the module binds the name; [NameError] otherwise. *)
Definition lookup {A : Type} (name : string) (value : A) : result A :=
  if name_bound name then Ok value
  else Raise (NameError ("name '" ++ name ++ "' is not defined")).

(* ------------------------------------------------------------------ *)
(** ** c2d *)

(** [sample_system] and [StateSpace] are bound by the imports of the module;
    [_convertToStateSpace] is looked up when the branch that names it runs. *)
Definition c2d `{Imports} (sysc Ts method : pyobj) : result pyobj :=
  sysd <- sample_system sysc Ts method ;;
  if isinstance_StateSpace sysc && negb (isinstance_StateSpace sysd)
  then convert <- lookup "_convertToStateSpace" _convertToStateSpace ;;
       convert sysd
  else Ok sysd.

(* ------------------------------------------------------------------ *)
(** ** An environment to run the wrappers in *)

Definition shape_ok (A B C D : matrix) : bool :=
  wf_matrix A && wf_matrix B && wf_matrix C && wf_matrix D
  && Nat.eqb (nrows A) (ncols A)
  && Nat.eqb (nrows B) (nrows A)
  && Nat.eqb (ncols C) (nrows A)
  && Nat.eqb (nrows D) (nrows C)
  && Nat.eqb (ncols D) (ncols B).

(** Modelled from the spec: [control.statesp.ss] is not part of the sources at
    hand.  On four matrices it builds the continuous StateSpace that holds
    them, provided the invariant of section 3 holds (A square, B with the
    rows of A, C with the columns of A, D with the rows of C and the columns
    of B); on a StateSpace it returns the system itself.  The conversion of a
    transfer function (section 4.1) is left out of this stand-in, which
    serves the examples only. *)
Definition ss_model (args : list pyobj) : result StateSpace :=
  match args with
  | [PyMat A; PyMat B; PyMat C; PyMat D] =>
      if shape_ok A B C D then Ok (mkSS A B C D None)
      else Raise (ValueError "A, B, C and D have incompatible shapes")
  | [PyLTI (SS s)] => Ok s
  | _ => Raise (TypeError "ss: unsupported arguments")
  end.

(** A system with the poles -3 + 4j, -3 - 4j and -2, the output of the SISO
    discretisations, and a table of [damp] values for it.  These are
    stand-ins for the examples: the table knows this one system, and no
    state-space system. *)
Definition tf_example : TransferFunction :=
  mkTF [[[1]]] [[[1; 8; 37; 50]]] None.

Definition damp_example (s : LTI) : result (list Q * list Q * list complex) :=
  match s with
  | TF _ => Ok ([5; 5; 2], [3 # 5; 3 # 5; 1],
                [Complex (-3) 4; Complex (-3) (-4); Complex (-2) 0])
  | SS _ => Raise (NotImplementedError "damp")
  end.

Definition sample_example (sysc Ts method : pyobj) : result pyobj :=
  match Ts with
  | PyNum h => Ok (PyLTI (TF (mkTF [[[h]]] [[[1; -1]]] (Some h))))
  | _ => Raise (TypeError "Ts")
  end.

Definition convert_example (sys : pyobj) : result pyobj :=
  match sys with
  | PyLTI (SS s) => Ok sys
  | PyLTI (TF t) =>
      Ok (PyLTI (SS (mkSS (Matrix 1 [[1]]) (Matrix 1 [[1]])
                          (Matrix 1 (hd [] (tf_num t))) (Matrix 1 [[0]])
                          (tf_dt t))))
  | _ => Raise (TypeError "_convertToStateSpace")
  end.

Definition example_imports : Imports := {|
  ss := ss_model;
  zpk2ss := fun _ _ _ => Raise (NotImplementedError "zpk2ss");
  tf2ss := fun _ _ => Raise (NotImplementedError "tf2ss");
  pinv := fun _ => Raise (NotImplementedError "pinv");
  lti_damp := damp_example;
  sample_system := sample_example;
  _convertToStateSpace := convert_example;
  freqresp := fun _ => Raise (NotImplementedError "freqresp");
  sensitivity_margin := fun _ _ _ => (NaN, NaN)
|}.

(** The system of the DC gain example. *)
Definition A_ex : matrix := Matrix 2 [[-2; 0]; [0; -3]].
Definition B_ex : matrix := Matrix 1 [[1]; [1]].
Definition C_ex : matrix := Matrix 2 [[1; 1]].
Definition D_ex : matrix := Matrix 1 [[0]].

(** Frequency data with two phase crossings, whose gain margins are 5 and 2,
    in both orders. *)
Definition mag_52 : list Q := [1 # 5; 1 # 5; 1 # 2; 1 # 2].
Definition mag_25 : list Q := [1 # 2; 1 # 2; 1 # 5; 1 # 5].
Definition phase_x2 : list Q := [-170; -190; -190; -170].
Definition w_x2 : list Q := [1; 2; 3; 4].





(** The state-space system of the DC gain example. *)
Definition ss_ex : StateSpace := mkSS A_ex B_ex C_ex D_ex None.

(** The frequency data a call of [margin] works on: the three arrays it is
    given, or the response of the system it is given. *)
Definition margin_input `{Imports} (args : list pyobj) (mag phase w : list Q)
  : Prop :=
  args = [PySeq mag; PySeq phase; PySeq w]
  \/ args = [PyTuple [PySeq mag; PySeq phase; PySeq w]]
  \/ exists s, args = [PyLTI s] /\ freqresp s = Ok (mag, phase, w).

(* ------------------------------------------------------------------ *)
(** ** Vocabulary of the statements about matrices *)

(** Vectors equal entry by entry, as rationals. *)
Definition veq (u v : vec) : Prop := Forall2 Qeq u v.

Definition col (i : nat) (m : list vec) : vec := map (fun r => nth i r 0) m.

Definition all_zero (v : vec) : Prop := Forall (fun x => x == 0) v.

(** An [n] by [n] matrix. *)
Definition square (n : nat) (a : matrix) : Prop :=
  nrows a = n /\ ncols a = n /\ Forall (fun r => length r = n) (mrows a).

(** A singular matrix: it sends a non-zero vector to zero, that is, 0 is one
    of its eigenvalues (a pole of the system at the origin). *)
Definition singular (a : matrix) : Prop :=
  exists v : vec,
    length v = nrows a /\ ~ all_zero v /\ Forall (fun r => dot r v == 0) (mrows a).

(** Invariants of the elimination on the rows [A] of an [n] by [n] matrix:
    a row [(l, r)] at column [j] records that [r * A] is [l] behind [j]
    zeros; a row of the triangular system has a 1 in front of [l]; the
    [j]-th solution row times [A] is the [j]-th unit vector. *)
Definition row_ok (n : nat) (A : list vec) (j : nat) (r : arow) : Prop :=
  length (snd r) = n
  /\ (j + length (fst r))%nat = n
  /\ veq (lincomb n (snd r) A) (repeat 0 j ++ fst r).

Definition tri_ok (n : nat) (A : list vec) (j : nat) (r : arow) : Prop :=
  length (snd r) = n
  /\ S (j + length (fst r)) = n
  /\ veq (lincomb n (snd r) A) (repeat 0 j ++ 1 :: fst r).

Fixpoint tri_list_ok (n : nat) (A : list vec) (j : nat) (tri : list arow) : Prop :=
  match tri with
  | [] => True
  | r :: rest => tri_ok n A j r /\ tri_list_ok n A (S j) rest
  end.

Fixpoint sol_ok (n : nat) (A : list vec) (j : nat) (xs : list vec) : Prop :=
  match xs with
  | [] => True
  | x :: xs' =>
      length x = n
      /\ veq (lincomb n x A) (unit_vec n j)
      /\ sol_ok n A (S j) xs'
  end.

(** The shape invariant of a state-space system with [n] states
    (section 3): A square, B with the rows of A, C with the columns of A, D
    with the rows of C and the columns of B. *)
Definition ss_shape (n : nat) (s : StateSpace) : Prop :=
  square n (ssA s)
  /\ nrows (ssB s) = n
  /\ ncols (ssC s) = n
  /\ nrows (ssD s) = nrows (ssC s)
  /\ ncols (ssD s) = ncols (ssB s).

(* ------------------------------------------------------------------ *)
(** ** Further vocabulary *)

(** [margin] as a function of the [stability_margins] it imports: the body
    of [margin], whatever tuple the import returns. *)
Definition margin_with (stability_margins : pyobj -> result (list xnum))
           (args : list pyobj) : result (xnum * xnum * xnum * xnum) :=
  margin <- match args with
            | [sys] => stability_margins sys
            | [_; _; _] => stability_margins (PyTuple args)
            | _ => Raise (ValueError
                     ("Margin needs 1 or 3 arguments; received "
                        ++ format_i (length args) ++ "."))
            end ;;
  m0 <- getitem margin 0 ;;
  m1 <- getitem margin 1 ;;
  m4 <- getitem margin 4 ;;
  m3 <- getitem margin 3 ;;
  Ok (m0, m1, m4, m3).

(** A state-space system with [n] states whose matrices have full rows. *)
Definition ss_wf (n : nat) (s : StateSpace) : Prop :=
  ss_shape n s
  /\ wf_matrix (ssB s) = true
  /\ wf_matrix (ssC s) = true
  /\ wf_matrix (ssD s) = true.

(** An environment whose [sample_system] keeps the representation of the
    system it is given and only stamps the sample time on it. *)
Definition sample_keep (sysc Ts method : pyobj) : result pyobj :=
  match sysc, Ts with
  | PyLTI (SS s), PyNum h =>
      Ok (PyLTI (SS (mkSS (ssA s) (ssB s) (ssC s) (ssD s) (Some h))))
  | PyLTI (TF t), PyNum h =>
      Ok (PyLTI (TF (mkTF (tf_num t) (tf_den t) (Some h))))
  | _, _ => Raise (TypeError "sample_system")
  end.

Definition keep_imports : Imports := {|
  ss := ss_model;
  zpk2ss := fun _ _ _ => Raise (NotImplementedError "zpk2ss");
  tf2ss := fun _ _ => Raise (NotImplementedError "tf2ss");
  pinv := fun _ => Raise (NotImplementedError "pinv");
  lti_damp := damp_example;
  sample_system := sample_keep;
  _convertToStateSpace := convert_example;
  freqresp := fun _ => Raise (NotImplementedError "freqresp");
  sensitivity_margin := fun _ _ _ => (NaN, NaN)
|}.

(** A SISO system in modal form: A diagonal with the poles [a] on the
    diagonal, B the column [b], C the row [c], D the scalar [d]. *)
Definition diag_row (n i : nat) (x : Q) : vec :=
  repeat 0 i ++ x :: repeat 0 (n - S i).

Definition diag (a : vec) : matrix :=
  Matrix (length a)
         (map (fun i => diag_row (length a) i (nth i a 0)) (seq 0 (length a))).

Definition column (b : vec) : matrix := Matrix 1 (map (fun y => [y]) b).

Definition row_matrix (c : vec) : matrix := Matrix (length c) [c].

Definition scalar (d : Q) : matrix := Matrix 1 [[d]].

(* ------------------------------------------------------------------ *)
(** ** dcgain over any numpy

    [dcgain] again, with the three matrix operations it uses, [A.I], [*] and
    [-], and the conversions as parameters: the body of the function does
    not depend on how numbers are represented.  [M] is the type of matrices,
    [O] the type of the arguments. *)

Record linsys (M : Type) : Type := LinSys { lsA : M; lsB : M; lsC : M; lsD : M }.
Arguments LinSys {M} lsA lsB lsC lsD.
Arguments lsA {M} l.
Arguments lsB {M} l.
Arguments lsC {M} l.
Arguments lsD {M} l.

Class Numpy (M : Type) : Type := {
  np_I : M -> result M;
  np_mul : M -> M -> result M;
  np_sub : M -> M -> result M
}.

Class Converters (O M : Type) : Type := {
  cv_ss : list O -> result (linsys M);
  cv_zpk2ss : O -> O -> O -> result (O * O * O * O);
  cv_tf2ss : O -> O -> result (linsys M)
}.

Definition gain_over {M : Type} `{Numpy M} (sys : linsys M) : result M :=
  ai <- np_I (lsA sys) ;;
  cai <- np_mul (lsC sys) ai ;;
  caib <- np_mul cai (lsB sys) ;;
  np_sub (lsD sys) caib.

Definition dcgain_convert_over {O M : Type} `{Converters O M} (args : list O)
  : result (linsys M) :=
  match args with
  | [A; B; C; D] => cv_ss [A; B; C; D]
  | [Z; P; k] =>
      '(A, B, C, D) <- cv_zpk2ss Z P k ;;
      cv_ss [A; B; C; D]
  | [num; den] => cv_tf2ss num den
  | [sys] => cv_ss [sys]
  | _ => Raise (ValueError
           "Function ``dcgain`` needs either 1, 2, 3 or 4 arguments.")
  end.

Definition dcgain_over {O M : Type} `{Numpy M} `{Converters O M} (args : list O)
  : result M :=
  sys <- dcgain_convert_over args ;;
  gain_over sys.




(* ------------------------------------------------------------------ *)
(** ** numpy on doubles

    The matrices of the package hold IEEE binary64 numbers.  The inverse is
    LAPACK's: an LU factorisation with partial pivoting ([getrf]), which
    reports a pivot that is exactly zero, then the solution of [A X = 1]
    ([getrs]); numpy turns the report into [LinAlgError].  The loops below
    are those of the reference LAPACK and BLAS; a tuned BLAS may fuse a
    product with a sum or sum in another order, which can change the last
    bits of a result. *)

Definition fvec : Type := list float.

Record fmatrix : Type := FMatrix { fncols : nat; fmrows : list fvec }.

Definition fnrows (m : fmatrix) : nat := length (fmrows m).

Definition is_fzero (x : float) : bool := (x =? 0)%float.

(** The safe minimum of LAPACK ([dlamch('S')]): below it a reciprocal may
    overflow. *)
Definition sfmin : float := 0x1p-1022%float.

(** [idamax]: the index of the first entry of largest absolute value. *)
Fixpoint idamax_from (best : nat) (dmax : float) (i : nat) (xs : fvec) : nat :=
  match xs with
  | [] => best
  | x :: xs' =>
      if (dmax <? abs x)%float
      then idamax_from i (abs x) (S i) xs'
      else idamax_from best dmax (S i) xs'
  end.

Definition idamax (xs : fvec) : nat :=
  match xs with
  | [] => 0%nat
  | x :: xs' => idamax_from 0 (abs x) 1 xs'
  end.

(** Exchange of the first row and row [p]. *)
Definition swap_first {A : Type} (p : nat) (rows : list A) : list A :=
  match rows, p with
  | r0 :: rest, S q =>
      match nth_error rest q with
      | Some rp => rp :: firstn q rest ++ r0 :: skipn (S q) rest
      | None => rows
      end
  | _, _ => rows
  end.

(** A row of the factorisation in progress: what is left of the row of the
    matrix, from the current column on, and the row of the right-hand side. *)
Definition frow : Type := (fvec * fvec)%type.

Definition flead (r : frow) : float := hd 0%float (fst r).

(** The multiplier of a row below the pivot [a] ([dscal] by the reciprocal,
    or a division when the pivot is tiny). *)
Definition multiplier (a x : float) : float :=
  if (sfmin <=? abs a)%float then ((1 / a) * x)%float else (x / a)%float.

(** The update of a row below the pivot row: [dger] on the matrix part,
    the forward substitution of [dtrsm] on the right-hand side; both skip an
    entry of the pivot row that is zero. *)
Definition fupdate (piv : frow) (r : frow) : frow :=
  let l := multiplier (flead piv) (flead r) in
  (map2 (fun x u => if is_fzero u then x else (x + l * (- u))%float)
        (tl (fst r)) (tl (fst piv)),
   map2 (fun b y => if is_fzero y then b else (b - y * l)%float)
        (snd r) (snd piv)).

(** [getrf] over [n] columns: [None] when a pivot is exactly zero. *)
Fixpoint fgetrf (n : nat) (rows : list frow) : option (list frow) :=
  match n with
  | O => Some []
  | S k =>
      match swap_first (idamax (map flead rows)) rows with
      | [] => None
      | piv :: others =>
          if is_fzero (flead piv) then None
          else match fgetrf k (map (fupdate piv) others) with
               | None => None
               | Some tri => Some (piv :: tri)
               end
      end
  end.

Fixpoint map3 {A B C D : Type} (f : A -> B -> C -> D)
         (a : list A) (b : list B) (c : list C) : list D :=
  match a, b, c with
  | x :: a', y :: b', z :: c' => f x y z :: map3 f a' b' c'
  | _, _, _ => []
  end.

(** Back substitution ([dtrsm], upper triangle): for each row, from the
    last, the right-hand side before the division and the solution. *)
Fixpoint fback (tri : list frow) : list (fvec * fvec) :=
  match tri with
  | [] => []
  | (u, y) :: rest =>
      let sols := fback rest in
      let acc :=
        fold_right
          (fun us acc =>
             map3 (fun a pre x =>
                     if is_fzero pre then a else (a - x * fst us)%float)
                  acc (fst (snd us)) (snd (snd us)))
          y (combine (tl u) sols) in
      (acc, map (fun a => if is_fzero a then a else (a / hd 0 u)%float) acc)
        :: sols
  end.

Fixpoint funit_vec (n i : nat) : fvec :=
  match n with
  | O => []
  | S n' => match i with
            | O => 1%float :: repeat 0%float n'
            | S i' => 0%float :: funit_vec n' i'
            end
  end.

Definition fidentity (n : nat) : list fvec := map (funit_vec n) (seq 0 n).

Definition finv (a : fmatrix) : result fmatrix :=
  let n := fnrows a in
  match fgetrf n (combine (fmrows a) (fidentity n)) with
  | Some tri => Ok (FMatrix n (map snd (fback tri)))
  | None => Raise (LinAlgError "Singular matrix")
  end.

Definition fgetI (pinv : fmatrix -> result fmatrix) (a : fmatrix)
  : result fmatrix :=
  if Nat.eqb (fnrows a) (fncols a) then finv a else pinv a.

(** A row times a matrix, summed as [dgemm] does: from zero, one row of
    [b] after the other. *)
Definition frowmul (c : nat) (r : fvec) (b : list fvec) : fvec :=
  fold_left (fun acc xr => map2 (fun s y => (s + y * fst xr)%float) acc (snd xr))
            (combine r b) (repeat 0%float c).

Definition fmmul (a b : fmatrix) : result fmatrix :=
  if Nat.eqb (fncols a) (fnrows b)
  then Ok (FMatrix (fncols b) (map (fun r => frowmul (fncols b) r (fmrows b))
                                   (fmrows a)))
  else Raise (ValueError "shapes not aligned").

Definition fbroadcast (r c : nat) (m : fmatrix) : list fvec :=
  stretch r (map (stretch c) (fmrows m)).

Definition fmsub (a b : fmatrix) : result fmatrix :=
  match bdim (fnrows a) (fnrows b), bdim (fncols a) (fncols b) with
  | Some r, Some c =>
      Ok (FMatrix c (map2 (map2 PrimFloat.sub) (fbroadcast r c a) (fbroadcast r c b)))
  | _, _ => Raise (ValueError "operands could not be broadcast together")
  end.

Definition float_numpy (pinv : fmatrix -> result fmatrix) : Numpy fmatrix :=
  {| np_I := fgetI pinv; np_mul := fmmul; np_sub := fmsub |}.

(** The rational a double stands for; [None] for an infinity or a NaN. *)
Definition Q_of_float (x : float) : option Q :=
  match Prim2SF x with
  | S754_zero _ => Some 0
  | S754_finite s m e =>
      Some ((if s then - (1) else 1) * inject_Z (Zpos m) * Qpower 2 e)
  | _ => None
  end.

(** A matrix of doubles holds exactly the numbers of a rational matrix. *)
Definition denotes (f : fmatrix) (q : matrix) : Prop :=
  fncols f = ncols q
  /\ Forall2 (Forall2 (fun x y => exists v, Q_of_float x = Some v /\ v == y))
             (fmrows f) (mrows q).

Definition fwf_matrix (m : fmatrix) : bool :=
  forallb (fun r => Nat.eqb (length r) (fncols m)) (fmrows m).

Definition fshape_ok (A B C D : fmatrix) : bool :=
  fwf_matrix A && fwf_matrix B && fwf_matrix C && fwf_matrix D
  && Nat.eqb (fnrows A) (fncols A)
  && Nat.eqb (fnrows B) (fnrows A)
  && Nat.eqb (fncols C) (fnrows A)
  && Nat.eqb (fnrows D) (fnrows C)
  && Nat.eqb (fncols D) (fncols B).

(** Modelled from the spec: [ss] on four matrices of doubles, as [ss_model]
    on rational ones; the arguments are the matrices themselves. *)
Definition fss_model (args : list fmatrix) : result (linsys fmatrix) :=
  match args with
  | [A; B; C; D] =>
      if fshape_ok A B C D then Ok (LinSys A B C D)
      else Raise (ValueError "A, B, C and D have incompatible shapes")
  | _ => Raise (TypeError "ss: unsupported arguments")
  end.

Definition float_converters : Converters fmatrix fmatrix :=
  {| cv_ss := fss_model;
     cv_zpk2ss := fun _ _ _ => Raise (NotImplementedError "zpk2ss");
     cv_tf2ss := fun _ _ => Raise (NotImplementedError "tf2ss") |}.

Definition no_pinv (a : fmatrix) : result fmatrix :=
  Raise (NotImplementedError "pinv").

Definition fB_ex : fmatrix := FMatrix 1 [[1]; [1]]%float.
Definition fC_ex : fmatrix := FMatrix 2 [[1; 1]]%float.
Definition fD_ex : fmatrix := FMatrix 1 [[0]]%float.

(** A singular matrix, [[1, 1], [49, 49]], in doubles and in rationals. *)
Definition fA_sing : fmatrix := FMatrix 2 [[1; 1]; [49; 49]]%float.
Definition A_sing : matrix := Matrix 2 [[1; 1]; [49; 49]].

(** The integrator in doubles. *)
Definition fA_int : fmatrix := FMatrix 1 [[0]]%float.
Definition f11 (x : float) : fmatrix := FMatrix 1 [[x]].

(* ================================================================== *)
(** * Properties *)

(** ** The result monad *)

Lemma bind_ok_inv {A B : Type} (r : result A) (k : A -> result B) (b : B) :
  bind r k = Ok b -> exists a, r = Ok a /\ k a = Ok b.
Proof.
  destruct r as [a | e]; simpl; intros Hb.
  - exists a; split; [reflexivity | exact Hb].
  - discriminate Hb.
Qed.

Lemma bind_ret_r {A : Type} (r : result A) : bind r Ok = r.
Proof. destruct r; reflexivity. Qed.

Ltac bind_inv H :=
  let a := fresh "a" in
  let Ha := fresh "Ha" in
  apply bind_ok_inv in H; destruct H as (a & Ha & H).

(** ** margin: the argument count *)

Section Margin_arity.
Context `{Imports}.

Lemma margin_bad_arity (args : list pyobj) :
  length args <> 1%nat -> length args <> 3%nat ->
  margin args =
  Raise (ValueError ("Margin needs 1 or 3 arguments; received "
                       ++ format_i (length args) ++ ".")).
Proof.
  intros H1 H3.
  destruct args as [| a [| b [| c [| d rest]]]]; simpl in *;
    try reflexivity; congruence.
Qed.

(** C2: a call of [margin] with a number of arguments other than 1 or 3
    (two, in particular) raises the [ValueError] that carries the count
    received, an invalid-argument error of the taxonomy; it returns no
    margins. *)
Theorem margin_wrong_argument_count (args : list pyobj) :
  length args <> 1%nat -> length args <> 3%nat ->
  exists msg,
    margin args = Raise (ValueError msg)
    /\ msg = ("Margin needs 1 or 3 arguments; received "
                ++ format_i (length args) ++ ".")%string
    /\ error_class (ValueError msg) = Some InvalidArgumentError
    /\ is_ok (margin args) = false.
Proof.
  intros H1 H3. eexists. split; [apply margin_bad_arity; assumption |].
  split; [reflexivity |]. split; [reflexivity |].
  rewrite margin_bad_arity by assumption. reflexivity.
Qed.
End Margin_arity.

(** Two positional arguments: the message reads "received 2." *)
Lemma margin_wrong_argument_count_witness :
  exists msg,
    @margin example_imports [PySeq mag_52; PySeq phase_x2] = Raise (ValueError msg)
    /\ msg = "Margin needs 1 or 3 arguments; received 2."%string
    /\ error_class (ValueError msg) = Some InvalidArgumentError
    /\ is_ok (@margin example_imports [PySeq mag_52; PySeq phase_x2]) = false.
Proof.
  apply (@margin_wrong_argument_count example_imports
           [PySeq mag_52; PySeq phase_x2]); simpl; lia.
Defined.

(** ** dcgain: dispatch on the argument count *)

Section Dcgain_dispatch.
Context `{Imports}.

(** C9: with a number of arguments other than 1, 2, 3 or 4, [dcgain] raises
    its arity error; four arguments are taken as the matrices A, B, C, D,
    three as zeros, poles and gain, two as numerator and denominator, one
    as a system object. *)
Theorem dcgain_argument_dispatch :
  (forall args : list pyobj,
      length args <> 1%nat -> length args <> 2%nat ->
      length args <> 3%nat -> length args <> 4%nat ->
      dcgain args =
      Raise (ValueError
               "Function ``dcgain`` needs either 1, 2, 3 or 4 arguments.")
      /\ error_class (ValueError
               "Function ``dcgain`` needs either 1, 2, 3 or 4 arguments.")
         = Some InvalidArgumentError)
  /\ (forall A B C D, dcgain_convert [A; B; C; D] = ss [A; B; C; D])
  /\ (forall Z P k,
         dcgain_convert [Z; P; k] =
         bind (zpk2ss Z P k) (fun '(A, B, C, D) => ss [A; B; C; D]))
  /\ (forall num den, dcgain_convert [num; den] = tf2ss num den)
  /\ (forall sys, dcgain_convert [sys] = ss [sys])
  /\ (forall args, dcgain args = bind (dcgain_convert args) gain_of).
Proof.
  split.
  { intros args H1 H2 H3 H4.
    destruct args as [| a [| b [| c [| d [| e rest]]]]]; simpl in *;
      try congruence; split; reflexivity. }
  repeat split; intros; reflexivity.
Qed.
End Dcgain_dispatch.

(** No argument and five arguments. *)
Lemma dcgain_argument_dispatch_witness :
  @dcgain example_imports [] =
    Raise (ValueError "Function ``dcgain`` needs either 1, 2, 3 or 4 arguments.")
  /\ @dcgain example_imports
       [PyMat A_ex; PyMat B_ex; PyMat C_ex; PyMat D_ex; PyNum 1] =
    Raise (ValueError "Function ``dcgain`` needs either 1, 2, 3 or 4 arguments.").
Proof.
  split.
  - apply (proj1 (@dcgain_argument_dispatch example_imports) []); simpl; lia.
  - apply (proj1 (@dcgain_argument_dispatch example_imports)
             [PyMat A_ex; PyMat B_ex; PyMat C_ex; PyMat D_ex; PyNum 1]);
      simpl; lia.
Defined.

(** ** c2d *)

Section C2d.
Context `{Imports}.

(** C3: the names the wrappers use are bound by the imports of the module,
    all but [_convertToStateSpace]; so when [sample_system] turns a
    StateSpace input into something that is not a StateSpace, [c2d] raises
    [NameError] where it meant to convert the result back; for an input that
    is not a StateSpace, [c2d] returns the discretised system as it is, so a
    transfer function stays one. *)
Theorem c2d_conversion_branch_raises_NameError (sysc Ts method sysd : pyobj) :
  sample_system sysc Ts method = Ok sysd ->
  name_bound "_convertToStateSpace" = false
  /\ forallb name_bound
       ["stability_margins"%string; "ss"%string; "zpk2ss"%string;
        "tf2ss"%string; "sample_system"%string; "StateSpace"%string] = true
  /\ (isinstance_StateSpace sysc = true ->
      isinstance_StateSpace sysd = false ->
      c2d sysc Ts method
      = Raise (NameError "name '_convertToStateSpace' is not defined"))
  /\ (isinstance_StateSpace sysc = false ->
      c2d sysc Ts method = Ok sysd
      /\ forall t, sysd = PyLTI (TF t) -> c2d sysc Ts method = Ok (PyLTI (TF t))).
Proof.
  intros Hs. split; [reflexivity |]. split; [reflexivity |].
  unfold c2d. rewrite Hs. simpl. split.
  - intros Hc Hd. rewrite Hc, Hd. reflexivity.
  - intros Hc. rewrite Hc. simpl. split; [reflexivity |].
    intros t ->. reflexivity.
Qed.

(** C10: for an input that is not a StateSpace, [c2d] is [sample_system]:
    the same value or the same exception, for every sample time and every
    method, with no check of its own on the system, the sample time or the
    method name. *)
Theorem c2d_delegates_without_validation (sysc Ts method : pyobj) :
  isinstance_StateSpace sysc = false ->
  c2d sysc Ts method = sample_system sysc Ts method.
Proof.
  intros Hc. unfold c2d. rewrite Hc. simpl. apply bind_ret_r.
Qed.
End C2d.

(** A StateSpace input whose discretisation is a transfer function: the
    call raises; a transfer function input comes back as [sample_system]
    left it. *)
Lemma c2d_conversion_branch_raises_NameError_witness :
  @c2d example_imports (PyLTI (SS ss_ex)) (PyNum 1) (PyStr "tustin")
  = Raise (NameError "name '_convertToStateSpace' is not defined")
  /\ @c2d example_imports (PyLTI (TF tf_example)) (PyNum 1) (PyStr "tustin")
     = Ok (PyLTI (TF (mkTF [[[1]]] [[[1; -1]]] (Some 1)))).
Proof.
  split.
  - apply (proj1 (proj2 (proj2
             (@c2d_conversion_branch_raises_NameError example_imports
                (PyLTI (SS ss_ex)) (PyNum 1) (PyStr "tustin") _ eq_refl))));
      reflexivity.
  - exact (proj1 (proj2 (proj2 (proj2
             (@c2d_conversion_branch_raises_NameError example_imports
                (PyLTI (TF tf_example)) (PyNum 1) (PyStr "tustin") _ eq_refl)))
             eq_refl)).
Defined.

(** A transfer function, a sample time that is not a number and a method
    that does not exist: the exception of [sample_system] comes through. *)
Lemma c2d_delegates_without_validation_witness :
  @c2d example_imports (PyLTI (TF tf_example)) PyNone (PyStr "no such method")
  = Raise (TypeError "Ts")
  /\ @c2d example_imports (PyLTI (TF tf_example)) (PyNum (-1)) (PyStr "zoh")
     = @sample_system example_imports (PyLTI (TF tf_example)) (PyNum (-1)) (PyStr "zoh").
Proof.
  split.
  - rewrite (@c2d_delegates_without_validation example_imports
               (PyLTI (TF tf_example)) PyNone (PyStr "no such method") eq_refl).
    reflexivity.
  - apply (@c2d_delegates_without_validation example_imports
             (PyLTI (TF tf_example)) (PyNum (-1)) (PyStr "zoh")).
    reflexivity.
Defined.

(** ** damp *)

Lemma Qltb_lt (x y : Q) : Qltb x y = true <-> x < y.
Proof.
  unfold Qltb. rewrite negb_true_iff. split.
  - intros Hb. apply Qnot_le_lt. intros Hle.
    apply Qle_bool_iff in Hle. congruence.
  - intros Hlt. destruct (Qle_bool y x) eqn:Hb; [| reflexivity].
    apply Qle_bool_iff in Hb. exfalso. exact (Qlt_not_le _ _ Hlt Hb).
Qed.

Lemma io_for_print {A : Type} (f : A -> line) (xs : list A) (out : list line) :
  io_for xs (fun x => print (f x)) out = (Ok tt, out ++ map f xs).
Proof.
  revert out. induction xs as [| x xs IH]; intros out; simpl.
  - unfold io_ret. rewrite app_nil_r. reflexivity.
  - unfold io_bind, print at 1. rewrite IH, <- app_assoc. reflexivity.
Qed.

Lemma nth_error_zip3 {A B C : Type} (a : list A) (b : list B) (c : list C)
      (i : nat) (x : A) :
  length b = length a -> length c = length a ->
  nth_error a i = Some x ->
  exists y z, nth_error (zip3 a b c) i = Some (x, y, z).
Proof.
  revert b c i. induction a as [| x0 a IH]; intros b c i Hb Hc Hx.
  - destruct i; discriminate Hx.
  - destruct b as [| y0 b]; [discriminate Hb |].
    destruct c as [| z0 c]; [discriminate Hc |].
    destruct i as [| i]; simpl in *.
    + injection Hx as ->. exists y0, z0. reflexivity.
    + apply IH; [lia | lia | exact Hx].
Qed.

Section Damp.
Context `{Imports}.

Lemma damp_printing (s : LTI) (wn damping : list Q) (poles : list complex)
      (out : list line) :
  lti_damp s = Ok (wn, damping, poles) ->
  damp (PyLTI s) true out
  = (Ok (wn, damping, poles),
     out ++ (header, []) :: map damp_row (zip3 poles damping wn)).
Proof.
  intros Hd. unfold damp, io_bind, io_lift. simpl. rewrite Hd.
  rewrite io_for_print. unfold io_ret.
  rewrite <- app_assoc. reflexivity.
Qed.


(** C8: the values [damp] returns do not depend on [doprint]: with and
    without the table, from any state of the output, the call returns the
    same result (the same three sequences or the same exception). *)
Theorem damp_result_independent_of_doprint (sys : pyobj) (out : list line) :
  fst (damp sys true out) = fst (damp sys false out)
  /\ damp_value sys true = damp_value sys false.
Proof.
  assert (Hgen : forall o, fst (damp sys true o) = fst (damp sys false o)).
  { intros o. unfold damp, io_bind, io_lift.
    destruct (call_damp sys) as [[[wn damping] poles] | e]; [| reflexivity].
    simpl. rewrite io_for_print. reflexivity. }
  split; [apply Hgen | apply (Hgen [])].
Qed.
End Damp.



(** ** margin: the margins reported *)

Lemma xltb_irrefl (a : xnum) : xltb a a = false.
Proof.
  destruct a as [x | |]; simpl; try reflexivity.
  destruct (Qltb x x) eqn:Hb; [| reflexivity].
  apply Qltb_lt in Hb. exfalso. exact (Qlt_irrefl _ Hb).
Qed.

Lemma xltb_asym (a b : xnum) : xltb a b = true -> xltb b a = false.
Proof.
  destruct a as [x | |], b as [y | |]; simpl; try reflexivity; try discriminate.
  intros Hab. apply Qltb_lt in Hab.
  destruct (Qltb y x) eqn:Hb; [| reflexivity].
  apply Qltb_lt in Hb. exfalso. exact (Qlt_irrefl _ (Qlt_trans _ _ _ Hab Hb)).
Qed.

(** Among numbers that are not NaN, [xltb] is a strict weak order: what is
    below [c] is below [b] or [b] is below [c]. *)
Lemma xltb_split (a b c : xnum) :
  b <> NaN -> xltb a c = true -> xltb a b = true \/ xltb b c = true.
Proof.
  intros Hb.
  destruct a as [x | |], b as [y | |], c as [z | |]; simpl;
    try discriminate; try congruence; try (intros _; left; reflexivity);
    try (intros _; right; reflexivity).
  intros Hxz. apply Qltb_lt in Hxz.
  destruct (Qlt_le_dec x y) as [Hxy | Hyx].
  - left. apply Qltb_lt. exact Hxy.
  - right. apply Qltb_lt. exact (Qle_lt_trans _ _ _ Hyx Hxz).
Qed.

Lemma worst_none (cands : list (xnum * Q)) : worst cands = None -> cands = [].
Proof.
  destruct cands as [| c rest]; [reflexivity |]. simpl.
  destruct (worst rest) as [b |]; [| discriminate].
  destruct (xltb (fst b) (fst c)); discriminate.
Qed.

Lemma worst_in (cands : list (xnum * Q)) (b : xnum * Q) :
  worst cands = Some b -> In b cands.
Proof.
  revert b. induction cands as [| c rest IH]; intros b; simpl.
  - discriminate.
  - destruct (worst rest) as [b0 |].
    + destruct (xltb (fst b0) (fst c)); intros Hb; injection Hb as <-.
      * right. apply IH. reflexivity.
      * left. reflexivity.
    + intros Hb. injection Hb as <-. left. reflexivity.
Qed.

Lemma worst_lowest (cands : list (xnum * Q)) (b : xnum * Q) :
  Forall (fun c => fst c <> NaN) cands ->
  worst cands = Some b ->
  forall c, In c cands -> xltb (fst c) (fst b) = false.
Proof.
  revert b. induction cands as [| c0 rest IH]; intros b Hnan Hw c Hin.
  - destruct Hin.
  - inversion Hnan as [| ? ? Hc0 Hrest]; subst. simpl in Hw.
    destruct (worst rest) as [b0 |] eqn:Hb0.
    + destruct (xltb (fst b0) (fst c0)) eqn:Hlt; injection Hw as <-.
      * destruct Hin as [<- | Hin].
        -- apply xltb_asym. exact Hlt.
        -- apply (IH b0 Hrest eq_refl c Hin).
      * destruct Hin as [<- | Hin].
        -- apply xltb_irrefl.
        -- destruct (xltb (fst c) (fst c0)) eqn:Hc; [| reflexivity].
           assert (Hb0nan : fst b0 <> NaN).
           { rewrite Forall_forall in Hrest.
             apply Hrest. apply worst_in. exact Hb0. }
           destruct (xltb_split _ (fst b0) _ Hb0nan Hc) as [Hcb | Hbc].
           ++ rewrite (IH b0 Hrest eq_refl c Hin) in Hcb. discriminate.
           ++ congruence.
    + injection Hw as <-. apply worst_none in Hb0. subst rest.
      destruct Hin as [<- | []]. apply xltb_irrefl.
Qed.

Lemma xinv_not_nan (m : Q) : xinv m <> NaN.
Proof. unfold xinv. destruct (is_zero m); discriminate. Qed.

Lemma gain_margins_not_nan (data : list sample) :
  Forall (fun c => fst c <> NaN) (gain_margins data).
Proof.
  unfold gain_margins. apply Forall_forall. intros c Hc.
  apply in_map_iff in Hc. destruct Hc as (x & <- & _). apply xinv_not_nan.
Qed.

Lemma phase_margins_not_nan (data : list sample) :
  Forall (fun c => fst c <> NaN) (phase_margins data).
Proof.
  unfold phase_margins. apply Forall_forall. intros c Hc.
  apply in_map_iff in Hc. destruct Hc as (x & <- & _). discriminate.
Qed.

(** What [select] returns: the sentinels when there is no candidate, a
    candidate that none undercuts otherwise. *)
Lemma select_spec (cands : list (xnum * Q)) (m f : xnum) :
  Forall (fun c => fst c <> NaN) cands ->
  select cands = (m, f) ->
  (cands = [] /\ m = Inf /\ f = NaN)
  \/ (exists w, In (m, w) cands /\ f = Fin w
                /\ forall c, In c cands -> xltb (fst c) m = false).
Proof.
  intros Hnan. unfold select.
  destruct (worst cands) as [[m0 w0] |] eqn:Hw; intros Hs; injection Hs as <- <-.
  - right. exists w0. split; [apply worst_in; exact Hw |].
    split; [reflexivity |]. apply (worst_lowest cands (m0, w0) Hnan Hw).
  - left. split; [apply worst_none; exact Hw |]. split; reflexivity.
Qed.

Section Margin.
Context `{Imports}.

Lemma margins_of_data_ok (mag phase w : list Q) (t : list xnum) :
  margins_of_data mag phase w = Ok t ->
  exists gm pm sm wg wp ws,
    t = [gm; pm; sm; wg; wp; ws]
    /\ select (gain_margins (samples mag (unwrap phase) w)) = (gm, wg)
    /\ select (phase_margins (samples mag (unwrap phase) w)) = (pm, wp).
Proof.
  unfold margins_of_data.
  destruct (Nat.eqb (length mag) (length phase)
            && Nat.eqb (length phase) (length w)); [| discriminate].
  destruct (select (gain_margins _)) as [gm wg].
  destruct (select (phase_margins _)) as [pm wp].
  destruct (sensitivity_margin mag phase w) as [sm ws].
  intros Ht. injection Ht as <-.
  exists gm, pm, sm, wg, wp, ws. repeat split.
Qed.

Lemma margins_of_data_total (mag phase w : list Q) :
  length mag = length phase -> length phase = length w ->
  exists gm pm sm wg wp ws,
    margins_of_data mag phase w = Ok [gm; pm; sm; wg; wp; ws].
Proof.
  intros H1 H2. unfold margins_of_data.
  rewrite H1, H2, !Nat.eqb_refl. simpl.
  destruct (select (gain_margins _)) as [gm wg].
  destruct (select (phase_margins _)) as [pm wp].
  destruct (sensitivity_margin mag phase w) as [sm ws].
  exists gm, pm, sm, wg, wp, ws. reflexivity.
Qed.

Lemma stability_margins_ok (sysdata : pyobj) (t : list xnum) :
  stability_margins sysdata = Ok t ->
  exists mag phase w,
    margins_of_data mag phase w = Ok t
    /\ (sysdata = PyTuple [PySeq mag; PySeq phase; PySeq w]
        \/ exists s, sysdata = PyLTI s /\ freqresp s = Ok (mag, phase, w)).
Proof.
  destruct sysdata as [| q | str | xs | m | s | xs]; simpl; try discriminate.
  - destruct (freqresp s) as [[[mag phase] w] | e] eqn:Hf; simpl;
      [| discriminate].
    intros Ht. exists mag, phase, w. split; [exact Ht |].
    right. exists s. split; [reflexivity | exact Hf].
  - destruct xs as [| o1 [| o2 [| o3 [| ? ?]]]];
      try (destruct o1); try (destruct o2); try (destruct o3);
      simpl; try discriminate.
    intros Ht. do 3 eexists. split; [exact Ht |]. left. reflexivity.
Qed.

Lemma margin_ok (args : list pyobj) (gm pm wcg wcp : xnum) :
  margin args = Ok (gm, pm, wcg, wcp) ->
  exists mag phase w sm ws,
    margin_input args mag phase w
    /\ margins_of_data mag phase w = Ok [gm; pm; sm; wcp; wcg; ws].
Proof.
  unfold margin. intros Hm. bind_inv Hm.
  assert (Hsm : exists sysdata,
             stability_margins sysdata = Ok a
             /\ (args = [sysdata]
                 \/ exists x y z, args = [x; y; z] /\ sysdata = PyTuple args)).
  { destruct args as [| x [| y [| z [| ? ?]]]]; try discriminate Ha.
    - exists x. split; [exact Ha | left; reflexivity].
    - exists (PyTuple [x; y; z]). split; [exact Ha |].
      right. exists x, y, z. split; reflexivity. }
  destruct Hsm as (sysdata & Hsd & Hshape).
  destruct (stability_margins_ok _ _ Hsd) as (mag & phase & w & Hdata & Hin).
  destruct (margins_of_data_ok _ _ _ _ Hdata)
    as (gm0 & pm0 & sm0 & wg0 & wp0 & ws0 & -> & _ & _).
  simpl in Hm. injection Hm as <- <- <- <-.
  exists mag, phase, w, sm0, ws0. split; [| exact Hdata].
  destruct Hshape as [-> | (x & y & z & -> & ->)].
  - destruct Hin as [-> | (s & -> & Hf)].
    + right. left. reflexivity.
    + right. right. exists s. split; [reflexivity | exact Hf].
  - destruct Hin as [Heq | (s & Heq & _)]; [| discriminate Heq].
    injection Heq as -> -> ->. left. reflexivity.
Qed.
End Margin.

Lemma map_eq_nil_inv {A B : Type} (f : A -> B) (l : list A) :
  map f l = [] -> l = [].
Proof. destruct l; [reflexivity | discriminate]. Qed.

Section Margin_claims.
Context `{Imports}.

(** C5: the gain margin [margin] reports is the lowest of the margins of
    the phase crossings found, whatever their frequencies, and the phase
    margin the lowest of the margins of the gain crossings; with two phase
    crossings whose margins are 5 and 2 the gain margin reported is 2, in
    whichever order the two occur. *)
Theorem margin_reports_lowest_margin :
  (forall (args : list pyobj) (gm pm wcg wcp : xnum),
      margin args = Ok (gm, pm, wcg, wcp) ->
      exists mag phase w,
        margin_input args mag phase w
        /\ (forall c, In c (gain_margins (samples mag (unwrap phase) w)) ->
                      xltb (fst c) gm = false)
        /\ (gain_margins (samples mag (unwrap phase) w) <> [] ->
            In gm (map fst (gain_margins (samples mag (unwrap phase) w))))
        /\ (forall c, In c (phase_margins (samples mag (unwrap phase) w)) ->
                      xltb (fst c) pm = false)
        /\ (phase_margins (samples mag (unwrap phase) w) <> [] ->
            In pm (map fst (phase_margins (samples mag (unwrap phase) w)))))
  /\ (exists g5 g2 f1 f2 g f,
         gain_margins (samples mag_52 (unwrap phase_x2) w_x2)
         = [(Fin g5, f1); (Fin g2, f2)]
         /\ g5 == 5 /\ g2 == 2 /\ f1 == 3 # 2 /\ f2 == 7 # 2
         /\ margin [PySeq mag_52; PySeq phase_x2; PySeq w_x2]
            = Ok (Fin g, Inf, NaN, Fin f)
         /\ g == 2 /\ f == 7 # 2)
  /\ (exists g2 g5 f1 f2 g f,
         gain_margins (samples mag_25 (unwrap phase_x2) w_x2)
         = [(Fin g2, f1); (Fin g5, f2)]
         /\ g2 == 2 /\ g5 == 5 /\ f1 == 3 # 2 /\ f2 == 7 # 2
         /\ margin [PySeq mag_25; PySeq phase_x2; PySeq w_x2]
            = Ok (Fin g, Inf, NaN, Fin f)
         /\ g == 2 /\ f == 3 # 2).
Proof.
  split; [| split].
  - intros args gm pm wcg wcp Hm.
    destruct (margin_ok _ _ _ _ _ Hm) as (mag & phase & w & sm & ws & Hin & Hd).
    destruct (margins_of_data_ok _ _ _ _ Hd)
      as (gm0 & pm0 & sm0 & wg0 & wp0 & ws0 & Heq & Hg & Hp).
    injection Heq as <- <- <- <- <- <-.
    exists mag, phase, w. split; [exact Hin |].
    destruct (select_spec _ _ _ (gain_margins_not_nan _) Hg)
      as [(Hnil & -> & ->) | (fw & Hmem & -> & Hlow)];
      destruct (select_spec _ _ _ (phase_margins_not_nan _) Hp)
      as [(Hnil' & -> & ->) | (fw' & Hmem' & -> & Hlow')];
      repeat split;
      try (rewrite Hnil; intros c []); try (rewrite Hnil'; intros c []);
      try assumption;
      try (intros _; apply (in_map fst) in Hmem; exact Hmem);
      try (intros _; apply (in_map fst) in Hmem'; exact Hmem');
      try (rewrite Hnil; congruence); try (rewrite Hnil'; congruence).
  - do 6 eexists. split; [vm_compute; reflexivity |].
    do 4 (split; [reflexivity |]).
    unfold margin, stability_margins, margins_of_data. simpl.
    destruct (sensitivity_margin mag_52 phase_x2 w_x2) as [sm ws].
    split; [vm_compute; reflexivity |]. split; reflexivity.
  - do 6 eexists. split; [vm_compute; reflexivity |].
    do 4 (split; [reflexivity |]).
    unfold margin, stability_margins, margins_of_data. simpl.
    destruct (sensitivity_margin mag_25 phase_x2 w_x2) as [sm ws].
    split; [vm_compute; reflexivity |]. split; reflexivity.
Qed.

(** C6: a successful call of [margin] returns, in this order, the gain
    margin (one over the magnitude at a phase crossing, a plain ratio), the
    phase margin (180 degrees plus the phase at a gain crossing), the
    frequency of that gain crossing and the frequency of that phase
    crossing; where there is no crossing the margin is the infinity
    sentinel and its frequency NaN, and the call still succeeds. *)
Theorem margin_result_order_and_sentinels :
  (forall (args : list pyobj) (gm pm wcg wcp : xnum),
      margin args = Ok (gm, pm, wcg, wcp) ->
      exists mag phase w,
        margin_input args mag phase w
        /\ ((scan phase_cross (samples mag (unwrap phase) w) = []
             /\ gm = Inf /\ wcp = NaN)
            \/ (exists c, In c (scan phase_cross (samples mag (unwrap phase) w))
                          /\ gm = xinv (c_val c) /\ wcp = Fin (c_w c)))
        /\ ((scan gain_cross (samples mag (unwrap phase) w) = []
             /\ pm = Inf /\ wcg = NaN)
            \/ (exists c, In c (scan gain_cross (samples mag (unwrap phase) w))
                          /\ pm = Fin (180 + c_val c) /\ wcg = Fin (c_w c))))
  /\ (forall mag phase w : list Q,
         length mag = length phase -> length phase = length w ->
         exists gm pm wcg wcp,
           margin [PySeq mag; PySeq phase; PySeq w] = Ok (gm, pm, wcg, wcp)).
Proof.
  split.
  - intros args gm pm wcg wcp Hm.
    destruct (margin_ok _ _ _ _ _ Hm) as (mag & phase & w & sm & ws & Hin & Hd).
    destruct (margins_of_data_ok _ _ _ _ Hd)
      as (gm0 & pm0 & sm0 & wg0 & wp0 & ws0 & Heq & Hg & Hp).
    injection Heq as <- <- <- <- <- <-.
    exists mag, phase, w. split; [exact Hin |]. split.
    + destruct (select_spec _ _ _ (gain_margins_not_nan _) Hg)
        as [(Hnil & -> & ->) | (fw & Hmem & -> & _)].
      * left. split; [| split; reflexivity].
        apply map_eq_nil_inv in Hnil. exact Hnil.
      * right. unfold gain_margins in Hmem. apply in_map_iff in Hmem.
        destruct Hmem as (c & Hc & Hcin). injection Hc as <- <-.
        exists c. repeat split. exact Hcin.
    + destruct (select_spec _ _ _ (phase_margins_not_nan _) Hp)
        as [(Hnil & -> & ->) | (fw & Hmem & -> & _)].
      * left. split; [| split; reflexivity].
        apply map_eq_nil_inv in Hnil. exact Hnil.
      * right. unfold phase_margins in Hmem. apply in_map_iff in Hmem.
        destruct Hmem as (c & Hc & Hcin). injection Hc as <- <-.
        exists c. repeat split. exact Hcin.
  - intros mag phase w H1 H2.
    destruct (margins_of_data_total mag phase w H1 H2)
      as (gm & pm & sm & wg & wp & ws & Hd).
    exists gm, pm, wp, wg. unfold margin. simpl. rewrite Hd. reflexivity.
Qed.
End Margin_claims.

(** The data with candidate gain margins 5 and 2: the call succeeds and the
    margin reported, 2 at the frequency 7/2, is undercut by no candidate. *)
Lemma margin_reports_lowest_margin_witness :
  @margin example_imports [PySeq mag_52; PySeq phase_x2; PySeq w_x2]
  = Ok (Fin (160 # 80), Inf, NaN, Fin (70 # 20))
  /\ exists mag phase w,
      @margin_input example_imports
        [PySeq mag_52; PySeq phase_x2; PySeq w_x2] mag phase w
      /\ (forall c, In c (gain_margins (samples mag (unwrap phase) w)) ->
                    xltb (fst c) (Fin (160 # 80)) = false)
      /\ (gain_margins (samples mag (unwrap phase) w) <> [] ->
          In (Fin (160 # 80))
             (map fst (gain_margins (samples mag (unwrap phase) w))))
      /\ (forall c, In c (phase_margins (samples mag (unwrap phase) w)) ->
                    xltb (fst c) Inf = false)
      /\ (phase_margins (samples mag (unwrap phase) w) <> [] ->
          In Inf (map fst (phase_margins (samples mag (unwrap phase) w)))).
Proof.
  split; [reflexivity |].
  apply (proj1 (@margin_reports_lowest_margin example_imports)
           [PySeq mag_52; PySeq phase_x2; PySeq w_x2]
           (Fin (160 # 80)) Inf NaN (Fin (70 # 20))).
  reflexivity.
Defined.

(** The same data: the gain margin is paired with the phase crossing at 7/2;
    no gain crossing, so the phase margin is infinite and its frequency NaN.
    Three arrays of four entries each: the call succeeds. *)
Lemma margin_result_order_and_sentinels_witness :
  (exists mag phase w,
      @margin_input example_imports
        [PySeq mag_52; PySeq phase_x2; PySeq w_x2] mag phase w
      /\ ((scan phase_cross (samples mag (unwrap phase) w) = []
           /\ Fin (160 # 80) = Inf /\ Fin (70 # 20) = NaN)
          \/ (exists c, In c (scan phase_cross (samples mag (unwrap phase) w))
                        /\ Fin (160 # 80) = xinv (c_val c)
                        /\ Fin (70 # 20) = Fin (c_w c)))
      /\ ((scan gain_cross (samples mag (unwrap phase) w) = []
           /\ Inf = Inf /\ NaN = NaN)
          \/ (exists c, In c (scan gain_cross (samples mag (unwrap phase) w))
                        /\ Inf = Fin (180 + c_val c) /\ NaN = Fin (c_w c))))
  /\ (exists gm pm wcg wcp,
         @margin example_imports [PySeq mag_52; PySeq phase_x2; PySeq w_x2]
         = Ok (gm, pm, wcg, wcp)).
Proof.
  split.
  - apply (proj1 (@margin_result_order_and_sentinels example_imports)
             [PySeq mag_52; PySeq phase_x2; PySeq w_x2]
             (Fin (160 # 80)) Inf NaN (Fin (70 # 20))).
    reflexivity.
  - apply (proj2 (@margin_result_order_and_sentinels example_imports)
             mag_52 phase_x2 w_x2); reflexivity.
Defined.

(** ** Vectors *)

Lemma veq_refl (u : vec) : veq u u.
Proof. induction u; constructor; [reflexivity | assumption]. Qed.

Lemma veq_sym (u v : vec) : veq u v -> veq v u.
Proof.
  induction 1; constructor; [symmetry; assumption | assumption].
Qed.

Lemma veq_trans (u v w : vec) : veq u v -> veq v w -> veq u w.
Proof.
  intros Huv. revert w. induction Huv as [| x y u v Hxy Huv IH]; intros w Hvw.
  - exact Hvw.
  - inversion Hvw as [| ? z ? w' Hyz Hvw']; subst.
    constructor; [rewrite Hxy; exact Hyz | apply IH; exact Hvw'].
Qed.

Lemma veq_length (u v : vec) : veq u v -> length u = length v.
Proof. induction 1; simpl; congruence. Qed.

Lemma veq_nth (u v : vec) (i : nat) : veq u v -> nth i u 0 == nth i v 0.
Proof.
  intros Huv. revert i. induction Huv as [| x y u v Hxy Huv IH]; intros i.
  - reflexivity.
  - destruct i; simpl; [exact Hxy | apply IH].
Qed.

(** Two vectors of the same length with equal entries are equal. *)
Lemma veq_ext (u v : vec) :
  length u = length v ->
  (forall i, (i < length u)%nat -> nth i u 0 == nth i v 0) ->
  veq u v.
Proof.
  revert v. induction u as [| x u IH]; intros v Hlen Hnth.
  - destruct v; [constructor | discriminate Hlen].
  - destruct v as [| y v]; [discriminate Hlen |]. constructor.
    + apply (Hnth 0%nat). simpl. lia.
    + apply IH; [simpl in Hlen; lia |].
      intros i Hi. apply (Hnth (S i)). simpl. lia.
Qed.

Lemma vadd_length (a b : vec) :
  length a = length b -> length (vadd a b) = length a.
Proof.
  revert b. induction a as [| x a IH]; intros [| y b] Hl; simpl in *;
    try reflexivity; try discriminate. rewrite IH; lia.
Qed.

Lemma vsub_length (a b : vec) :
  length a = length b -> length (vsub a b) = length a.
Proof.
  revert b. induction a as [| x a IH]; intros [| y b] Hl; simpl in *;
    try reflexivity; try discriminate. rewrite IH; lia.
Qed.

Lemma vscale_length (c : Q) (a : vec) : length (vscale c a) = length a.
Proof. apply length_map. Qed.

Lemma nth_vadd (a b : vec) (i : nat) :
  length a = length b -> nth i (vadd a b) 0 == nth i a 0 + nth i b 0.
Proof.
  revert b i. induction a as [| x a IH]; intros [| y b] i Hl; simpl in *;
    try discriminate.
  - destruct i; ring.
  - destruct i; [reflexivity | apply IH; lia].
Qed.

Lemma nth_vsub (a b : vec) (i : nat) :
  length a = length b -> nth i (vsub a b) 0 == nth i a 0 - nth i b 0.
Proof.
  revert b i. induction a as [| x a IH]; intros [| y b] i Hl; simpl in *;
    try discriminate.
  - destruct i; ring.
  - destruct i; [reflexivity | apply IH; lia].
Qed.

Lemma nth_vscale (c : Q) (a : vec) (i : nat) :
  nth i (vscale c a) 0 == c * nth i a 0.
Proof.
  revert i. induction a as [| x a IH]; intros i; simpl.
  - destruct i; ring.
  - destruct i; [reflexivity | apply IH].
Qed.

Lemma nth_zeros (n i : nat) : nth i (repeat 0 n) 0 = 0.
Proof.
  revert i. induction n as [| n IH]; intros [| i]; simpl; try reflexivity.
  apply IH.
Qed.

Lemma nth_unit_vec (n j i : nat) :
  nth i (unit_vec n j) 0 = if Nat.eqb i j then (if Nat.ltb j n then 1 else 0) else 0.
Proof.
  revert j i. induction n as [| n IH]; intros j i; simpl.
  - destruct i; destruct (Nat.eqb _ j); reflexivity.
  - destruct j as [| j].
    + destruct i as [| i]; simpl; [reflexivity | apply nth_zeros].
    + destruct i as [| i]; simpl; [reflexivity |]. rewrite IH.
      reflexivity.
Qed.

Lemma unit_vec_length (n j : nat) : length (unit_vec n j) = n.
Proof.
  revert j. induction n as [| n IH]; intros j; simpl; [reflexivity |].
  destruct j; simpl; [rewrite repeat_length | rewrite IH]; reflexivity.
Qed.

Lemma nth_zeros_app (j : nat) (l : vec) (i : nat) :
  nth i (repeat 0 j ++ l) 0 = if Nat.ltb i j then 0 else nth (i - j) l 0.
Proof.
  destruct (Nat.ltb i j) eqn:Hij.
  - apply Nat.ltb_lt in Hij. rewrite app_nth1 by (rewrite repeat_length; lia).
    apply nth_zeros.
  - apply Nat.ltb_ge in Hij. rewrite app_nth2 by (rewrite repeat_length; lia).
    rewrite repeat_length. reflexivity.
Qed.

(** ** The dot product *)

Lemma dot_veq (a a' b b' : vec) : veq a a' -> veq b b' -> dot a b == dot a' b'.
Proof.
  intros Ha. revert b b'.
  induction Ha as [| x x' a a' Hx Ha IH]; intros b b' Hb.
  - reflexivity.
  - destruct Hb as [| y y' b b' Hy Hb]; simpl; [reflexivity |].
    rewrite Hx, Hy, (IH _ _ Hb). reflexivity.
Qed.

Lemma dot_vscale (c : Q) (a w : vec) : dot (vscale c a) w == c * dot a w.
Proof.
  revert w. induction a as [| x a IH]; intros [| y w]; simpl; try ring.
  rewrite IH. ring.
Qed.

Lemma dot_vadd (a b w : vec) :
  length a = length b -> dot (vadd a b) w == dot a w + dot b w.
Proof.
  revert b w. induction a as [| x a IH]; intros [| y b] w Hl; simpl in *;
    try discriminate.
  - ring.
  - destruct w as [| z w]; [ring |]. rewrite IH by lia. ring.
Qed.

Lemma dot_zeros_l (n : nat) (w : vec) : dot (repeat 0 n) w == 0.
Proof.
  revert w. induction n as [| n IH]; intros [| z w]; simpl; try reflexivity.
  rewrite IH. ring.
Qed.

Lemma dot_all_zero_r (a w : vec) : all_zero w -> dot a w == 0.
Proof.
  intros Hw. revert a. induction Hw as [| z w Hz Hw IH]; intros [| x a]; simpl;
    try reflexivity.
  rewrite Hz, IH. ring.
Qed.

Lemma dot_unit_vec (n j : nat) (w : vec) :
  (j < n)%nat -> dot (unit_vec n j) w == nth j w 0.
Proof.
  revert j w. induction n as [| n IH]; intros j w Hj; [lia |].
  destruct j as [| j]; simpl.
  - destruct w as [| z w]; [reflexivity |]. rewrite dot_zeros_l. simpl. ring.
  - destruct w as [| z w]; [reflexivity |]. rewrite IH by lia. simpl. ring.
Qed.

Lemma dot_vsub (a b w : vec) :
  length a = length b -> dot (vsub a b) w == dot a w - dot b w.
Proof.
  revert b w. induction a as [| x a IH]; intros [| y b] w Hl; simpl in *;
    try discriminate.
  - ring.
  - destruct w as [| z w]; [ring |]. rewrite IH by lia. ring.
Qed.

(** ** Row vector times matrix *)

Lemma lincomb_length (n : nat) (A : list vec) (cs : vec) :
  Forall (fun r => length r = n) A -> length (lincomb n cs A) = n.
Proof.
  intros HA. revert cs. induction HA as [| v vs Hv Hvs IH]; intros cs.
  - destruct cs; simpl; apply repeat_length.
  - destruct cs as [| x cs]; simpl; [apply repeat_length |].
    rewrite vadd_length.
    + rewrite vscale_length. exact Hv.
    + rewrite vscale_length, IH. exact Hv.
Qed.

(** Entry [i] of [cs * A] is the dot product of [cs] and column [i]. *)
Lemma nth_lincomb (n : nat) (A : list vec) (cs : vec) (i : nat) :
  Forall (fun r => length r = n) A ->
  nth i (lincomb n cs A) 0 == dot cs (col i A).
Proof.
  intros HA. revert cs. induction HA as [| v vs Hv Hvs IH]; intros cs.
  - destruct cs; simpl; rewrite nth_zeros; reflexivity.
  - destruct cs as [| x cs]; simpl; [rewrite nth_zeros; reflexivity |].
    rewrite nth_vadd.
    + rewrite nth_vscale, IH. reflexivity.
    + rewrite vscale_length, (lincomb_length n vs cs Hvs). exact Hv.
Qed.

Lemma nth_lincomb_vscale (n : nat) (A : list vec) (c : Q) (s : vec) (i : nat) :
  Forall (fun r => length r = n) A ->
  nth i (lincomb n (vscale c s) A) 0 == c * nth i (lincomb n s A) 0.
Proof. intros HA. rewrite !nth_lincomb by exact HA. apply dot_vscale. Qed.

Lemma nth_lincomb_vsub (n : nat) (A : list vec) (a b : vec) (i : nat) :
  Forall (fun r => length r = n) A ->
  length a = length b ->
  nth i (lincomb n (vsub a b) A) 0
  == nth i (lincomb n a A) 0 - nth i (lincomb n b A) 0.
Proof.
  intros HA Hl. rewrite !nth_lincomb by exact HA. apply dot_vsub. exact Hl.
Qed.

(** [(cs * A) . u = cs . (A u)] *)
Lemma dot_lincomb (n : nat) (A : list vec) (cs u : vec) :
  Forall (fun r => length r = n) A ->
  dot (lincomb n cs A) u == dot cs (map (fun r => dot r u) A).
Proof.
  intros HA. revert cs. induction HA as [| v vs Hv Hvs IH]; intros cs.
  - destruct cs; simpl; apply dot_zeros_l.
  - destruct cs as [| x cs]; simpl; [apply dot_zeros_l |].
    rewrite dot_vadd.
    + rewrite dot_vscale, IH. reflexivity.
    + rewrite vscale_length, (lincomb_length n vs cs Hvs). exact Hv.
Qed.

(** ** Elimination keeps the rows consistent with the matrix *)

Lemma lead_scale_row (c : Q) (r : arow) : lead (scale_row c r) == c * lead r.
Proof.
  unfold lead, scale_row. simpl. destruct (fst r); simpl; ring.
Qed.

Lemma lead_sub_row (r p : arow) :
  length (fst r) = length (fst p) ->
  lead (sub_row r p) == lead r - lead p.
Proof.
  unfold lead, sub_row. simpl.
  destruct (fst r), (fst p); simpl; intros Hl; try discriminate; ring.
Qed.

Lemma find_pivot_spec (rows : list arow) (p : arow) (others : list arow) :
  find_pivot rows = Some (p, others) ->
  In p rows /\ (forall r, In r others -> In r rows) /\ ~ lead p == 0.
Proof.
  revert p others. induction rows as [| r rest IH]; intros p others; simpl.
  - discriminate.
  - destruct (is_zero (lead r)) eqn:Hz.
    + destruct (find_pivot rest) as [[p0 others0] |]; [| discriminate].
      intros Hp. injection Hp as <- <-.
      destruct (IH p0 others0 eq_refl) as (Hin & Hsub & Hnz).
      split; [right; exact Hin |]. split; [| exact Hnz].
      intros r' [<- | Hr']; [left; reflexivity | right; apply Hsub; exact Hr'].
    + intros Hp. injection Hp as <- <-.
      split; [left; reflexivity |]. split; [intros r' Hr'; right; exact Hr' |].
      unfold is_zero in Hz. apply Qeq_bool_neq. exact Hz.
Qed.

Section Elimination.
Variable n : nat.
Variable A : list vec.
Hypothesis A_width : Forall (fun r => length r = n) A.

Lemma row_ok_scale (j : nat) (c : Q) (r : arow) :
  row_ok n A j r -> row_ok n A j (scale_row c r).
Proof.
  intros (Hr & Hl & Heq). unfold row_ok, scale_row. simpl.
  rewrite !vscale_length. split; [exact Hr |]. split; [exact Hl |].
  apply veq_ext.
  - rewrite (lincomb_length n A _ A_width), length_app, repeat_length,
      vscale_length. lia.
  - intros i _. rewrite (nth_lincomb_vscale n A c _ i A_width).
    rewrite (veq_nth _ _ i Heq), !nth_zeros_app.
    destruct (Nat.ltb i j); [ring | rewrite nth_vscale; reflexivity].
Qed.

Lemma row_ok_sub (j : nat) (r p : arow) :
  row_ok n A j r -> row_ok n A j p -> row_ok n A j (sub_row r p).
Proof.
  intros (Hr & Hl & Heq) (Hr' & Hl' & Heq'). unfold row_ok, sub_row. simpl.
  rewrite !vsub_length by lia. split; [exact Hr |]. split; [exact Hl |].
  apply veq_ext.
  - rewrite (lincomb_length n A _ A_width), length_app, repeat_length,
      vsub_length by lia. lia.
  - intros i _. rewrite (nth_lincomb_vsub n A _ _ i A_width) by lia.
    rewrite (veq_nth _ _ i Heq), (veq_nth _ _ i Heq'), !nth_zeros_app.
    destruct (Nat.ltb i j); [ring | rewrite nth_vsub by lia; reflexivity].
Qed.

Lemma row_ok_drop (j : nat) (r : arow) :
  (j < n)%nat -> row_ok n A j r -> lead r == 0 ->
  row_ok n A (S j) (drop_col r).
Proof.
  intros Hj (Hr & Hl & Heq) Hz. unfold row_ok, drop_col, lead in *.
  destruct r as [l s]. simpl in *.
  destruct l as [| h t]; simpl in *; [lia |].
  split; [exact Hr |]. split; [lia |].
  apply (veq_trans _ _ _ Heq). apply veq_ext.
  - simpl. rewrite !length_app, !repeat_length. simpl. lia.
  - intros i _. change (0 :: repeat 0 j ++ t) with (repeat 0 (S j) ++ t).
    rewrite !nth_zeros_app.
    destruct (Nat.ltb_spec i j) as [Hij | Hij],
             (Nat.ltb_spec i (S j)) as [Hij' | Hij'];
      try lia; try reflexivity.
    + replace (i - j)%nat with 0%nat by lia. simpl. exact Hz.
    + replace (i - j)%nat with (S (i - S j)) by lia. reflexivity.
Qed.

Lemma row_ok_tri (j : nat) (r : arow) :
  (j < n)%nat -> row_ok n A j r -> lead r == 1 ->
  tri_ok n A j (drop_col r).
Proof.
  intros Hj (Hr & Hl & Heq) Hone. unfold tri_ok, drop_col, lead in *.
  destruct r as [l s]. simpl in *.
  destruct l as [| h t]; simpl in *; [lia |].
  split; [exact Hr |]. split; [lia |].
  apply (veq_trans _ _ _ Heq). apply veq_ext.
  - rewrite !length_app. reflexivity.
  - intros i _. rewrite !nth_zeros_app.
    destruct (Nat.ltb i j); [reflexivity |].
    destruct (i - j)%nat; simpl; [exact Hone | reflexivity].
Qed.

Lemma eliminate_ok (k j : nat) (rows tri : list arow) :
  (j + k)%nat = n ->
  Forall (row_ok n A j) rows ->
  eliminate k rows = Some tri ->
  tri_list_ok n A j tri /\ length tri = k.
Proof.
  revert j rows tri. induction k as [| k IH]; intros j rows tri Hjk Hrows; simpl.
  - intros Ht. injection Ht as <-. split; [exact I | reflexivity].
  - destruct (find_pivot rows) as [[p others] |] eqn:Hp; [| discriminate].
    destruct (find_pivot_spec _ _ _ Hp) as (Hpin & Hsub & Hnz).
    rewrite Forall_forall in Hrows.
    set (p1 := scale_row (/ lead p) p).
    assert (Hp1 : row_ok n A j p1) by (apply row_ok_scale, Hrows, Hpin).
    assert (Hlead : lead p1 == 1).
    { unfold p1. rewrite lead_scale_row. field. exact Hnz. }
    destruct (eliminate k (map (reduce p1) others)) as [tri0 |] eqn:He;
      [| discriminate].
    intros Ht. injection Ht as <-.
    assert (Hothers : Forall (row_ok n A (S j)) (map (reduce p1) others)).
    { apply Forall_forall. intros r' Hr'. apply in_map_iff in Hr'.
      destruct Hr' as (r & <- & Hr). unfold reduce.
      assert (Hrk : row_ok n A j r) by (apply Hrows, Hsub, Hr).
      assert (Hsc : row_ok n A j (scale_row (lead r) p1))
        by (apply row_ok_scale; exact Hp1).
      apply row_ok_drop; [lia | apply row_ok_sub; assumption |].
      rewrite lead_sub_row.
      - rewrite lead_scale_row, Hlead. ring.
      - destruct Hrk as (_ & Hl1 & _), Hsc as (_ & Hl2 & _). lia. }
    destruct (IH (S j) _ _ ltac:(lia) Hothers He) as (Htri & Hlen).
    split; [| simpl; rewrite Hlen; reflexivity].
    simpl. split; [| exact Htri].
    apply row_ok_tri; [lia | exact Hp1 | exact Hlead].
Qed.
End Elimination.

(** ** Back substitution solves the triangular system *)

Section Back_substitution.
Variable n : nat.
Variable A : list vec.
Hypothesis A_width : Forall (fun r => length r = n) A.

Lemma sol_ok_width (j : nat) (xs : list vec) :
  sol_ok n A j xs -> Forall (fun x => length x = n) xs.
Proof.
  revert j. induction xs as [| x xs IH]; intros j; simpl.
  - constructor.
  - intros (Hx & _ & Hxs). constructor; [exact Hx | apply (IH _ Hxs)].
Qed.

(** The rows [xs] times [A] are unit vectors, so a combination of them
    times column [i] of [A] picks one coefficient. *)
Lemma sol_ok_dot (j : nat) (xs : list vec) (pl : vec) (i : nat) :
  sol_ok n A j xs ->
  length pl = length xs ->
  (j + length xs)%nat = n ->
  dot pl (map (fun r => dot r (col i A)) xs) == nth i (repeat 0 j ++ pl) 0.
Proof.
  revert j pl. induction xs as [| x xs IH]; intros j pl Hsol Hl Hn.
  - destruct pl; [| discriminate Hl]. simpl.
    rewrite app_nil_r, nth_zeros. reflexivity.
  - destruct pl as [| y pl]; [discriminate Hl |].
    simpl in Hsol, Hl, Hn. destruct Hsol as (Hx & Hunit & Hxs). simpl.
    rewrite (IH (S j) pl Hxs) by lia.
    rewrite <- (nth_lincomb n A x i A_width), (veq_nth _ _ i Hunit).
    rewrite nth_unit_vec, !nth_zeros_app.
    destruct (Nat.eqb_spec i j) as [-> | Hij].
    + destruct (Nat.ltb_spec j n) as [_ | Hjn]; [| lia].
      destruct (Nat.ltb_spec j (S j)) as [_ | Hc]; [| lia].
      destruct (Nat.ltb_spec j j) as [Hc | _]; [lia |].
      rewrite Nat.sub_diag. simpl. ring.
    + destruct (Nat.ltb_spec i (S j)) as [Hlt | Hge],
               (Nat.ltb_spec i j) as [Hlt' | Hge']; try lia.
      * ring.
      * replace (i - j)%nat with (S (i - S j)) by lia. simpl. ring.
Qed.

Lemma back_subst_ok (tri : list arow) (j : nat) :
  tri_list_ok n A j tri ->
  (j + length tri)%nat = n ->
  sol_ok n A j (back_subst n tri)
  /\ length (back_subst n tri) = length tri.
Proof.
  revert j. induction tri as [| [pl pr] rest IH]; intros j Htri Hn.
  - split; [exact I | reflexivity].
  - simpl in Htri, Hn. destruct Htri as ((Hr & Hl & Heq) & Hrest).
    simpl in Hr, Hl, Heq.
    destruct (IH (S j) Hrest ltac:(lia)) as (Hsol & Hlen).
    pose proof (sol_ok_width _ _ Hsol) as Hw.
    simpl. split; [| rewrite Hlen; reflexivity].
    assert (Hlc : length (lincomb n pl (back_subst n rest)) = n)
      by (apply lincomb_length; exact Hw).
    split; [rewrite vsub_length; lia |]. split; [| exact Hsol].
    apply veq_ext.
    + rewrite (lincomb_length n A _ A_width), unit_vec_length. reflexivity.
    + intros i _.
      rewrite (nth_lincomb_vsub n A _ _ i A_width) by lia.
      rewrite (veq_nth _ _ i Heq).
      rewrite (nth_lincomb n A (lincomb n pl (back_subst n rest)) i A_width).
      rewrite (dot_lincomb n (back_subst n rest) pl (col i A) Hw).
      rewrite (sol_ok_dot (S j) _ pl i Hsol) by lia.
      rewrite nth_unit_vec, !nth_zeros_app.
      destruct (Nat.eqb_spec i j) as [-> | Hij].
      * destruct (Nat.ltb_spec j n) as [_ | Hjn]; [| lia].
        destruct (Nat.ltb_spec j (S j)) as [_ | Hc]; [| lia].
        destruct (Nat.ltb_spec j j) as [Hc | _]; [lia |].
        rewrite Nat.sub_diag. simpl. ring.
      * destruct (Nat.ltb_spec i (S j)) as [Hlt | Hge],
                 (Nat.ltb_spec i j) as [Hlt' | Hge']; try lia.
        -- ring.
        -- replace (i - j)%nat with (S (i - S j)) by lia. simpl. ring.
Qed.

End Back_substitution.

(** ** The inverse *)

Lemma nth_identity (n i : nat) :
  (i < n)%nat -> nth i (identity n) [] = unit_vec n i.
Proof.
  intros Hi. unfold identity.
  rewrite (nth_indep _ [] (unit_vec n 0)) by (rewrite length_map, length_seq; lia).
  rewrite map_nth, seq_nth by lia. reflexivity.
Qed.

Lemma identity_length (n : nat) : length (identity n) = n.
Proof. unfold identity. rewrite length_map, length_seq. reflexivity. Qed.

Lemma nth_col (A : list vec) (c i : nat) :
  (i < length A)%nat -> nth i (col c A) 0 = nth c (nth i A []) 0.
Proof.
  revert i. induction A as [| r A IH]; intros i Hi; simpl in *; [lia |].
  destruct i as [| i]; [reflexivity | apply IH; lia].
Qed.

Lemma initial_rows_ok (n : nat) (A : list vec) :
  length A = n ->
  Forall (fun r => length r = n) A ->
  Forall (row_ok n A 0) (combine A (identity n)).
Proof.
  intros Hlen HA. apply Forall_forall. intros [l r] Hin.
  destruct (In_nth _ _ ([], []) Hin) as (i & Hi & Hnth).
  rewrite length_combine, identity_length, Hlen, Nat.min_id in Hi.
  rewrite combine_nth in Hnth by (rewrite identity_length; exact Hlen).
  injection Hnth as <- <-. rewrite nth_identity by exact Hi.
  assert (Hrow : length (nth i A []) = n).
  { rewrite Forall_forall in HA. apply HA, nth_In. lia. }
  unfold row_ok. simpl. split; [apply unit_vec_length |].
  split; [exact Hrow |].
  apply veq_ext.
  - rewrite (lincomb_length n A _ HA). symmetry. exact Hrow.
  - intros c _. rewrite (nth_lincomb n A _ c HA), dot_unit_vec by exact Hi.
    rewrite nth_col by (rewrite Hlen; exact Hi). reflexivity.
Qed.

Lemma inv_ok (n : nat) (a x : matrix) :
  square n a ->
  inv a = Ok x ->
  ncols x = n /\ nrows x = n /\ sol_ok n (mrows a) 0 (mrows x).
Proof.
  intros (Hrows & _ & Hw). unfold inv, nrows in *. rewrite Hrows.
  destruct (eliminate n (combine (mrows a) (identity n))) as [tri |] eqn:He;
    [| discriminate].
  intros Hx. injection Hx as <-. simpl.
  destruct (eliminate_ok n (mrows a) Hw n 0 _ tri eq_refl
              (initial_rows_ok n (mrows a) Hrows Hw) He) as (Htri & Hlen).
  destruct (back_subst_ok n (mrows a) Hw tri 0 Htri ltac:(lia)) as (Hsol & Hl).
  split; [reflexivity |]. split; [lia | exact Hsol].
Qed.

Lemma all_zero_nth (v : vec) :
  (forall i, (i < length v)%nat -> nth i v 0 == 0) -> all_zero v.
Proof.
  induction v as [| x v IH]; intros Hnth; constructor.
  - apply (Hnth 0%nat). simpl. lia.
  - apply IH. intros i Hi. apply (Hnth (S i)). simpl. lia.
Qed.

(** ** A matrix that is not singular has an inverse *)

Lemma find_pivot_none (rows : list arow) :
  find_pivot rows = None -> Forall (fun r => lead r == 0) rows.
Proof.
  induction rows as [| r rest IH]; simpl; [constructor |].
  destruct (is_zero (lead r)) eqn:Hz; [| discriminate].
  destruct (find_pivot rest) as [[p others] |]; [discriminate |].
  intros _. constructor; [| apply IH; reflexivity].
  unfold is_zero in Hz. apply Qeq_bool_iff. exact Hz.
Qed.

Lemma find_pivot_cover (rows : list arow) (p : arow) (others : list arow) :
  find_pivot rows = Some (p, others) ->
  forall r, In r rows -> r = p \/ In r others.
Proof.
  revert p others. induction rows as [| r0 rest IH]; intros p others; simpl.
  - discriminate.
  - destruct (is_zero (lead r0)).
    + destruct (find_pivot rest) as [[p0 others0] |]; [| discriminate].
      intros Hp. injection Hp as <- <-. intros r [<- | Hr].
      * right. left. reflexivity.
      * destruct (IH p0 others0 eq_refl r Hr) as [-> | Hin];
          [left; reflexivity | right; right; exact Hin].
    + intros Hp. injection Hp as <- <-. intros r [<- | Hr];
        [left; reflexivity | right; exact Hr].
Qed.

Lemma dot_zeros_r (a : vec) (n : nat) : dot a (repeat 0 n) == 0.
Proof.
  apply dot_all_zero_r. unfold all_zero. apply Forall_forall.
  intros x Hx. apply repeat_spec in Hx. subst x. reflexivity.
Qed.

(** When the elimination stops for want of a pivot, some non-zero vector is
    orthogonal to every row it was given. *)
Lemma eliminate_fails (k : nat) (rows : list arow) :
  Forall (fun r => length (fst r) = k) rows ->
  eliminate k rows = None ->
  exists w : vec,
    length w = k /\ ~ all_zero w /\ Forall (fun r => dot (fst r) w == 0) rows.
Proof.
  revert rows. induction k as [| k IH]; intros rows Hw; simpl; [discriminate |].
  destruct (find_pivot rows) as [[p others] |] eqn:Hp.
  - destruct (find_pivot_spec _ _ _ Hp) as (Hpin & Hsub & Hnz).
    set (p1 := scale_row (/ lead p) p).
    destruct (eliminate k (map (reduce p1) others)) as [tri |] eqn:He;
      [discriminate |].
    intros _. rewrite Forall_forall in Hw.
    pose proof (Hw p Hpin) as Hpl.
    destruct p as [[| h t] s]; [discriminate Hpl |].
    unfold lead in Hnz; simpl in Hnz, Hpl.
    assert (Hred : Forall (fun r => length (fst r) = k) (map (reduce p1) others)).
    { apply Forall_forall. intros r' Hr'. apply in_map_iff in Hr'.
      destruct Hr' as (r & <- & Hr). pose proof (Hw r (Hsub r Hr)) as Hrl.
      destruct r as [[| hr tr] sr]; [discriminate Hrl |].
      unfold reduce, drop_col, sub_row, scale_row, p1, lead. simpl.
      simpl in Hrl. rewrite vsub_length; rewrite ?vscale_length; lia. }
    destruct (IH _ Hred He) as (w' & Hlen & Hnzw & Horth).
    set (tl1 := vscale (/ h) t).
    exists ((- dot tl1 w') :: w'). split; [simpl; lia |]. split.
    + intros Hz. apply Hnzw. inversion Hz; assumption.
    + rewrite Forall_forall in Horth. apply Forall_forall. intros r Hr.
      destruct (find_pivot_cover _ _ _ Hp r Hr) as [-> | Hro].
      * simpl. unfold tl1. rewrite dot_vscale. field. exact Hnz.
      * pose proof (Hw r Hr) as Hrl.
        destruct r as [[| hr tr] sr]; [discriminate Hrl |].
        simpl in Hrl. simpl.
        assert (Hrr : dot (vsub tr (vscale hr tl1)) w' == 0).
        { apply (Horth (reduce p1 (hr :: tr, sr))).
          apply in_map. exact Hro. }
        rewrite dot_vsub in Hrr
          by (unfold tl1; rewrite !vscale_length; lia).
        rewrite dot_vscale in Hrr.
        setoid_replace (dot tr w') with (hr * dot tl1 w')
          by (rewrite <- (Qplus_0_l (hr * dot tl1 w')), <- Hrr; ring).
        ring.
  - intros _. apply find_pivot_none in Hp.
    exists (1 :: repeat 0 k). split; [simpl; rewrite repeat_length; reflexivity |].
    split.
    + intros Hz. inversion Hz as [| ? ? H1 _]. discriminate H1.
    + rewrite Forall_forall in Hw, Hp. apply Forall_forall. intros r Hr.
      pose proof (Hw r Hr) as Hrl. pose proof (Hp r Hr) as Hlead.
      destruct r as [[| hr tr] sr]; [discriminate Hrl |].
      unfold lead in Hlead. simpl in Hlead. simpl.
      rewrite dot_zeros_r, Hlead. ring.
Qed.

Lemma in_combine_identity (n : nat) (A : list vec) (r : vec) :
  length A = n -> In r A -> exists s, In (r, s) (combine A (identity n)).
Proof.
  intros Hlen Hr. destruct (In_nth _ _ [] Hr) as (i & Hi & Hnth).
  exists (nth i (identity n) []). rewrite <- Hnth.
  assert (Hc : nth i (combine A (identity n)) ([], [])
               = (nth i A [], nth i (identity n) []))
    by (apply combine_nth; rewrite identity_length; exact Hlen).
  unfold vec in *. rewrite <- Hc. apply nth_In. rewrite length_combine, identity_length, Hlen, Nat.min_id.
  rewrite <- Hlen. exact Hi.
Qed.

Lemma inv_complete (n : nat) (a : matrix) :
  square n a -> ~ singular a -> exists x, inv a = Ok x.
Proof.
  intros (Hrows & _ & Hw) Hns. unfold inv, nrows in *. rewrite Hrows.
  destruct (eliminate n (combine (mrows a) (identity n))) as [tri |] eqn:He.
  - eexists. reflexivity.
  - exfalso. apply Hns.
    assert (Hwidth : Forall (fun r : arow => length (fst r) = n)
                            (combine (mrows a) (identity n))).
    { apply Forall_forall. intros [l s] Hin. simpl.
      rewrite Forall_forall in Hw. apply Hw. apply (in_combine_l _ _ _ _ Hin). }
    destruct (eliminate_fails n _ Hwidth He) as (w & Hlen & Hnz & Horth).
    exists w. unfold nrows. split; [lia |]. split; [exact Hnz |].
    rewrite Forall_forall in Horth. apply Forall_forall. intros r Hr.
    destruct (in_combine_identity n (mrows a) r Hrows Hr) as (s0 & Hin).
    apply (Horth (r, s0) Hin).
Qed.

(** ** dcgain: the gain *)

Section Dcgain.
Context `{Imports}.

Lemma gain_of_ok (sys : StateSpace) (g : matrix) (n : nat) :
  square n (ssA sys) ->
  gain_of sys = Ok g ->
  exists ai cai caib,
    inv (ssA sys) = Ok ai
    /\ mmul (ssC sys) ai = Ok cai
    /\ mmul cai (ssB sys) = Ok caib
    /\ msub (ssD sys) caib = Ok g.
Proof.
  intros (Hr & Hc & _) Hg. unfold gain_of, getI in Hg.
  rewrite Hr, Hc, Nat.eqb_refl in Hg.
  bind_inv Hg. rename a into ai. bind_inv Hg. rename a into cai.
  bind_inv Hg. rename a into caib.
  exists ai, cai, caib. repeat split; assumption.
Qed.

Lemma bdim_same (a : nat) : bdim a a = Some a.
Proof. unfold bdim. rewrite Nat.eqb_refl. reflexivity. Qed.

(** A system of the right shape whose A is not singular has a gain. *)
Lemma gain_of_returns (sys : StateSpace) (n : nat) :
  ss_shape n sys -> ~ singular (ssA sys) -> exists g, gain_of sys = Ok g.
Proof.
  intros (Hsq & HB & HC & HD1 & HD2) Hns.
  destruct (inv_complete n _ Hsq Hns) as (x & Hx).
  destruct (inv_ok n _ x Hsq Hx) as (Hxc & Hxr & _).
  destruct Hsq as (Hr & Hc & _).
  unfold gain_of, getI. rewrite Hr, Hc, Nat.eqb_refl, Hx. simpl.
  unfold mmul at 1. rewrite HC, Hxr, Nat.eqb_refl. simpl.
  unfold mmul at 1. simpl. rewrite Hxc, HB, Nat.eqb_refl. simpl.
  unfold msub, nrows in *. simpl. rewrite !length_map.
  rewrite HD1, HD2, !bdim_same. eexists. reflexivity.
Qed.

End Dcgain.





(** ** dcgain and a singular A, in doubles *)

Lemma in_firstn {A : Type} (n : nat) (l : list A) (x : A) :
  In x (firstn n l) -> In x l.
Proof.
  revert l. induction n as [| n IH]; intros [| y l]; simpl; try tauto.
  intros [-> | Hx]; [left; reflexivity | right; apply IH; exact Hx].
Qed.

Lemma in_skipn {A : Type} (n : nat) (l : list A) (x : A) :
  In x (skipn n l) -> In x l.
Proof.
  revert l. induction n as [| n IH]; intros [| y l]; simpl; try tauto.
  intros Hx. right; apply IH; exact Hx.
Qed.

(** The exchange of two rows brings in no new row. *)
Lemma swap_first_incl {A : Type} (p : nat) (rows : list A) (x : A) :
  In x (swap_first p rows) -> In x rows.
Proof.
  unfold swap_first. destruct rows as [| r0 rest]; [tauto |].
  destruct p as [| q]; [tauto |].
  destruct (nth_error rest q) as [rp |] eqn:Hq; [| tauto].
  intros [<- | Hx].
  - right. apply (nth_error_In _ _ Hq).
  - apply in_app_or in Hx. destruct Hx as [Hx | [<- | Hx]].
    + right. apply (in_firstn _ _ _ Hx).
    + left. reflexivity.
    + right. apply (in_skipn _ _ _ Hx).
Qed.

(** A first column of zeros leaves no pivot. *)
Lemma fgetrf_zero_column (n : nat) (rows : list frow) :
  (0 < n)%nat ->
  Forall (fun r => is_fzero (flead r) = true) rows ->
  fgetrf n rows = None.
Proof.
  intros Hn Hz. destruct n as [| k]; [lia |]. simpl.
  destruct (swap_first (idamax (map flead rows)) rows) as [| piv others] eqn:Hs;
    [reflexivity |].
  assert (Hin : In piv rows).
  { apply (swap_first_incl (idamax (map flead rows))). rewrite Hs.
    left. reflexivity. }
  rewrite Forall_forall in Hz. rewrite (Hz piv Hin). reflexivity.
Qed.

Lemma fmmul_error (a b : fmatrix) (e : exn) :
  fmmul a b = Raise e -> exists msg, e = ValueError msg.
Proof.
  unfold fmmul. destruct (Nat.eqb _ _); [discriminate |].
  intros He. injection He as <-. eexists. reflexivity.
Qed.

Lemma fmsub_error (a b : fmatrix) (e : exn) :
  fmsub a b = Raise e -> exists msg, e = ValueError msg.
Proof.
  unfold fmsub. destruct (bdim _ _); [destruct (bdim _ _) |];
    try discriminate; intros He; injection He as <-; eexists; reflexivity.
Qed.

Section Dcgain_doubles.
Context {O : Type} (V : Converters O fmatrix).
Variable pinv : fmatrix -> result fmatrix.

(** C7, as amended: [dcgain] fails with numpy's [LinAlgError], the
    singular-conversion error of the taxonomy, and returns no gain, exactly
    when the LU factorisation of A in doubles meets a pivot that is exactly
    zero; a first column of zeros (the integrator, any A with it) is such a
    case. *)
Theorem dcgain_zero_pivot_raises (args : list O) (sys : linsys fmatrix) :
  dcgain_convert_over args = Ok sys ->
  fnrows (lsA sys) = fncols (lsA sys) ->
  (fgetrf (fnrows (lsA sys))
          (combine (fmrows (lsA sys)) (fidentity (fnrows (lsA sys)))) = None
   <-> exists msg,
       @dcgain_over O fmatrix (float_numpy pinv) V args = Raise (LinAlgError msg))
  /\ (fgetrf (fnrows (lsA sys))
             (combine (fmrows (lsA sys)) (fidentity (fnrows (lsA sys)))) = None ->
      @dcgain_over O fmatrix (float_numpy pinv) V args
      = Raise (LinAlgError "Singular matrix")
      /\ error_class (LinAlgError "Singular matrix") = Some SingularConversionError
      /\ is_ok (@dcgain_over O fmatrix (float_numpy pinv) V args) = false)
  /\ ((0 < fnrows (lsA sys))%nat ->
      Forall (fun r => is_fzero (hd 0%float r) = true) (fmrows (lsA sys)) ->
      @dcgain_over O fmatrix (float_numpy pinv) V args
      = Raise (LinAlgError "Singular matrix")).
Proof.
  intros Hc Hsq.
  assert (Hraise :
            fgetrf (fnrows (lsA sys))
                   (combine (fmrows (lsA sys)) (fidentity (fnrows (lsA sys))))
            = None ->
            @dcgain_over O fmatrix (float_numpy pinv) V args
            = Raise (LinAlgError "Singular matrix")).
  { intros Hf. unfold dcgain_over. rewrite Hc. simpl.
    unfold gain_over. simpl. unfold fgetI. rewrite Hsq, Nat.eqb_refl.
    unfold finv. rewrite Hf. reflexivity. }
  split; [| split].
  - split.
    + intros Hf. eexists. apply Hraise. exact Hf.
    + intros (msg & Hd).
      destruct (fgetrf (fnrows (lsA sys))
                  (combine (fmrows (lsA sys)) (fidentity (fnrows (lsA sys)))))
        as [tri |] eqn:Hf; [| reflexivity].
      exfalso. unfold dcgain_over in Hd. rewrite Hc in Hd. simpl in Hd.
      unfold gain_over in Hd. simpl in Hd. unfold fgetI in Hd.
      rewrite Hsq, Nat.eqb_refl in Hd. unfold finv in Hd. rewrite Hf in Hd.
      simpl in Hd.
      destruct (fmmul (lsC sys) _) as [cai | e] eqn:H1; simpl in Hd;
        [| injection Hd as ->; destruct (fmmul_error _ _ _ H1); discriminate].
      destruct (fmmul cai (lsB sys)) as [caib | e] eqn:H2; simpl in Hd;
        [| injection Hd as ->; destruct (fmmul_error _ _ _ H2); discriminate].
      destruct (fmsub_error _ _ _ Hd); discriminate.
  - intros Hf. rewrite (Hraise Hf). repeat split.
  - intros Hn Hz. apply Hraise. apply fgetrf_zero_column; [exact Hn |].
    apply Forall_forall. intros [l r] Hin. unfold flead. simpl.
    rewrite Forall_forall in Hz. apply Hz. apply (in_combine_l _ _ _ _ Hin).
Qed.
End Dcgain_doubles.

(** The integrator, A = [[0]], with B = C = [[1]] and D = [[0]]. *)
Lemma dcgain_zero_pivot_raises_witness :
  @dcgain_over fmatrix fmatrix (float_numpy no_pinv) float_converters
    [fA_int; f11 1; f11 1; f11 0]
  = Raise (LinAlgError "Singular matrix").
Proof.
  apply (proj2 (proj2 (@dcgain_zero_pivot_raises fmatrix float_converters no_pinv
                         [fA_int; f11 1; f11 1; f11 0]
                         (LinSys fA_int (f11 1) (f11 1) (f11 0))
                         eq_refl eq_refl))).
  - unfold fnrows. simpl. lia.
  - repeat constructor.
Defined.

(** Against C7 as the specification words it, in doubles:
    [[1, 1], [49, 49]] is singular, it sends (1, -1) to zero, but after the
    exchange of its rows the second pivot is 1 - (1/49) * 49, which rounding
    leaves at 2^-53 (and which a fused multiply-add would not make zero
    either, 1/49 being no double); no pivot is zero and [dcgain] returns a
    gain. *)
Lemma dcgain_singular_A_returns_a_gain :
  singular A_sing
  /\ denotes fA_sing A_sing
  /\ (1 - (1 / 49) * 49)%float = 0x1p-53%float
  /\ (exists r, Q_of_float (1 / 49)%float = Some r /\ ~ 1 - r * 49 == 0)
  /\ @dcgain_over fmatrix fmatrix (float_numpy no_pinv) float_converters
       [fA_sing; fB_ex; fC_ex; fD_ex]
     = Ok (FMatrix 1 [[0%float]])
  /\ is_ok (@dcgain_over fmatrix fmatrix (float_numpy no_pinv) float_converters
              [fA_sing; fB_ex; fC_ex; fD_ex]) = true.
Proof.
  split.
  { exists [1; - (1)]. split; [reflexivity |]. split.
    - intros Hz. inversion Hz as [| ? ? H1 _]. discriminate H1.
    - repeat constructor. }
  split.
  { split; [reflexivity |].
    repeat constructor; eexists; (split; [vm_compute; reflexivity | reflexivity]). }
  split; [vm_compute; reflexivity |].
  split.
  { eexists. split; [vm_compute; reflexivity |]. intros Hq. discriminate Hq. }
  split; vm_compute; reflexivity.
Defined.

(* ================================================================== *)
(** * Further properties of the wrappers *)

(** ** margin, for any [stability_margins] *)

Lemma margin_with_stability_margins `{Imports} (args : list pyobj) :
  margin args = margin_with stability_margins args.
Proof. reflexivity. Qed.

Lemma getitem_ok {A : Type} (t : list A) (i : nat) :
  (i < length t)%nat -> exists x, getitem t i = Ok x /\ nth_error t i = Some x.
Proof.
  intros Hi. unfold getitem. destruct (nth_error t i) as [x |] eqn:Hx.
  - exists x. split; reflexivity.
  - apply nth_error_None in Hx. lia.
Qed.

Lemma getitem_out_of_range {A : Type} (t : list A) (i : nat) :
  (length t <= i)%nat -> getitem t i = Raise (IndexError "tuple index out of range").
Proof.
  intros Hi. unfold getitem. apply nth_error_None in Hi. rewrite Hi. reflexivity.
Qed.

(** What [margin] makes of the tuple [t] it got from [stability_margins]. *)
Lemma margin_with_tuple (sm : pyobj -> result (list xnum)) (sysdata : pyobj)
      (t : list xnum) :
  sm sysdata = Ok t ->
  margin_with sm [sysdata] =
  (m0 <- getitem t 0 ;; m1 <- getitem t 1 ;; m4 <- getitem t 4 ;;
   m3 <- getitem t 3 ;; Ok (m0, m1, m4, m3)).
Proof. intros Hs. unfold margin_with. rewrite Hs. reflexivity. Qed.

(** X1: a single argument that is a triple is handled as the three arguments
    it holds: [margin((mag, phase, w))] and [margin(mag, phase, w)] are the
    same call of [stability_margins] and give the same result or the same
    exception. *)
Theorem margin_triple_is_three_arguments
        (sm : pyobj -> result (list xnum)) (a b c : pyobj) :
  margin_with sm [PyTuple [a; b; c]] = margin_with sm [a; b; c].
Proof. reflexivity. Qed.

(** X2: [margin] needs a tuple of at least five entries from
    [stability_margins]: with fewer it raises [IndexError]; with five or more
    it returns entries 0, 1, 4 and 3, in this order; an exception of
    [stability_margins] comes through as it is. *)
Theorem margin_tuple_bounds (sm : pyobj -> result (list xnum)) (sysdata : pyobj) :
  (forall e, sm sysdata = Raise e -> margin_with sm [sysdata] = Raise e)
  /\ (forall t, sm sysdata = Ok t -> (length t < 5)%nat ->
                margin_with sm [sysdata]
                = Raise (IndexError "tuple index out of range"))
  /\ (forall t, sm sysdata = Ok t -> (5 <= length t)%nat ->
                margin_with sm [sysdata]
                = Ok (nth 0 t NaN, nth 1 t NaN, nth 4 t NaN, nth 3 t NaN)).
Proof.
  split; [| split].
  - intros e He. unfold margin_with. rewrite He. reflexivity.
  - intros t Ht Hlen. rewrite (margin_with_tuple sm sysdata t Ht).
    destruct t as [| x0 [| x1 [| x2 [| x3 [| x4 t']]]]]; simpl in *;
      try reflexivity; lia.
  - intros t Ht Hlen. rewrite (margin_with_tuple sm sysdata t Ht).
    destruct t as [| x0 [| x1 [| x2 [| x3 [| x4 t']]]]]; simpl in *;
      try lia; reflexivity.
Qed.

Lemma margin_tuple_bounds_witness :
  margin_with (fun _ => Ok [Fin 2; Inf; NaN; Fin 3]) [PyNone]
  = Raise (IndexError "tuple index out of range")
  /\ margin_with (fun _ => Ok [Fin 2; Inf; NaN; Fin 3; NaN; NaN]) [PyNone]
     = Ok (Fin 2, Inf, NaN, Fin 3)
  /\ margin_with (fun _ => Raise (TypeError "no system")) [PyNone]
     = Raise (TypeError "no system").
Proof.
  split; [| split].
  - apply (proj1 (proj2 (margin_tuple_bounds
                           (fun _ => Ok [Fin 2; Inf; NaN; Fin 3]) PyNone))
             [Fin 2; Inf; NaN; Fin 3] eq_refl).
    simpl. lia.
  - apply (proj2 (proj2 (margin_tuple_bounds
                           (fun _ => Ok [Fin 2; Inf; NaN; Fin 3; NaN; NaN]) PyNone))
             [Fin 2; Inf; NaN; Fin 3; NaN; NaN] eq_refl).
    simpl. lia.
  - apply (proj1 (margin_tuple_bounds
                    (fun _ => Raise (TypeError "no system")) PyNone)
             (TypeError "no system") eq_refl).
Defined.

(** X3: [margin] reads entries 0, 1, 3 and 4 of the tuple and nothing else:
    two implementations of [stability_margins] whose tuples agree on these
    four entries give the same result, whatever entry 2, entry 5 and the
    lengths of the tuples are. *)
Theorem margin_reads_four_entries
        (sm1 sm2 : pyobj -> result (list xnum)) (sysdata : pyobj)
        (t1 t2 : list xnum) :
  sm1 sysdata = Ok t1 ->
  sm2 sysdata = Ok t2 ->
  nth_error t1 0 = nth_error t2 0 ->
  nth_error t1 1 = nth_error t2 1 ->
  nth_error t1 3 = nth_error t2 3 ->
  nth_error t1 4 = nth_error t2 4 ->
  margin_with sm1 [sysdata] = margin_with sm2 [sysdata].
Proof.
  intros H1 H2 E0 E1 E3 E4.
  rewrite (margin_with_tuple sm1 sysdata t1 H1),
          (margin_with_tuple sm2 sysdata t2 H2).
  unfold getitem. rewrite E0, E1, E3, E4. reflexivity.
Qed.

Lemma margin_reads_four_entries_witness :
  margin_with (fun _ => Ok [Fin 2; Inf; Fin 1; Fin 3; NaN]) [PyNone]
  = margin_with (fun _ => Ok [Fin 2; Inf; NaN; Fin 3; NaN; Fin 7; Inf]) [PyNone].
Proof.
  apply (margin_reads_four_entries
           (fun _ => Ok [Fin 2; Inf; Fin 1; Fin 3; NaN])
           (fun _ => Ok [Fin 2; Inf; NaN; Fin 3; NaN; Fin 7; Inf])
           PyNone _ _ eq_refl eq_refl); reflexivity.
Defined.

(** ** damp: what is written *)

Section Damp_output.
Context `{Imports}.

(** X4: without [doprint], [damp] writes nothing: the output is left as it
    was, whether the call returns or raises. *)
Theorem damp_without_doprint_is_silent (sys : pyobj) (out : list line) :
  snd (damp sys false out) = out.
Proof.
  unfold damp, io_bind, io_lift.
  destruct (call_damp sys) as [[[wn damping] poles] | e]; reflexivity.
Qed.

(** X5: when the [damp] method of the system raises, or the object has
    none, [damp] raises the same exception and writes nothing, not even the
    header of the table, with and without [doprint]. *)
Theorem damp_failure_writes_nothing
        (sys : pyobj) (e : exn) (doprint : bool) (out : list line) :
  call_damp sys = Raise e ->
  damp sys doprint out = (Raise e, out).
Proof.
  intros He. unfold damp, io_bind, io_lift. rewrite He. reflexivity.
Qed.

(** X6: with [doprint], after a successful [damp] method, the output is the
    old output, the header, and one line for each pole that has both a
    damping and a frequency beside it: as many lines as the shortest of the
    three sequences is long, each in the format of a real or of a complex
    pole; the sequences are returned as they are, also when they are not
    aligned. *)
Theorem damp_table_has_one_line_per_zipped_pole
        (s : LTI) (wn damping : list Q) (poles : list complex) (out : list line) :
  lti_damp s = Ok (wn, damping, poles) ->
  exists rows,
    damp (PyLTI s) true out
    = (Ok (wn, damping, poles), out ++ (header, []) :: rows)
    /\ length rows
       = Nat.min (length poles) (Nat.min (length damping) (length wn))
    /\ Forall (fun l => (fst l = fmt_real /\ length (snd l) = 3%nat)
                        \/ (fst l = fmt_complex /\ length (snd l) = 4%nat)) rows.
Proof.
  intros Hd. exists (map damp_row (zip3 poles damping wn)).
  split; [apply damp_printing; exact Hd |]. split.
  - rewrite length_map. clear Hd. revert damping wn.
    induction poles as [| p poles IH]; intros damping wn; [reflexivity |].
    destruct damping as [| d damping]; [reflexivity |].
    destruct wn as [| w wn]; simpl; [reflexivity |].
    rewrite IH. reflexivity.
  - apply Forall_forall. intros l Hl. apply in_map_iff in Hl.
    destruct Hl as ([[p d] w] & <- & _). unfold damp_row.
    destruct (Qltb (Qabs (imag p)) eps); [left | right]; split; reflexivity.
Qed.
End Damp_output.

Lemma damp_failure_writes_nothing_witness :
  @damp example_imports (PyLTI (SS ss_ex)) true []
  = (Raise (NotImplementedError "damp"), [])
  /\ @damp example_imports (PyNum 1) true [(header, [])]
     = (Raise (AttributeError "'float' object has no attribute 'damp'"),
        [(header, [])]).
Proof.
  split.
  - apply (@damp_failure_writes_nothing example_imports). reflexivity.
  - apply (@damp_failure_writes_nothing example_imports). reflexivity.
Defined.

Lemma damp_table_has_one_line_per_zipped_pole_witness :
  exists rows,
    @damp example_imports (PyLTI (TF tf_example)) true []
    = (Ok ([5; 5; 2], [3 # 5; 3 # 5; 1],
           [Complex (-3) 4; Complex (-3) (-4); Complex (-2) 0]),
       [] ++ (header, []) :: rows)
    /\ length rows = Nat.min 3 (Nat.min 3 3)
    /\ Forall (fun l => (fst l = fmt_real /\ length (snd l) = 3%nat)
                        \/ (fst l = fmt_complex /\ length (snd l) = 4%nat)) rows.
Proof.
  apply (@damp_table_has_one_line_per_zipped_pole example_imports
           (TF tf_example) [5; 5; 2] [3 # 5; 3 # 5; 1]
           [Complex (-3) 4; Complex (-3) (-4); Complex (-2) 0] []).
  reflexivity.
Defined.

(** ** c2d: when the result is converted *)

Section C2d_conversion.
Context `{Imports}.

(** X7: whatever the input, an exception of [sample_system] comes through
    and a StateSpace result is returned as it is: [_convertToStateSpace] has
    no part in either outcome. *)
Theorem c2d_keeps_state_space_results_and_exceptions (sysc Ts method : pyobj) :
  (forall e, sample_system sysc Ts method = Raise e ->
             c2d sysc Ts method = Raise e)
  /\ (forall sysd, sample_system sysc Ts method = Ok sysd ->
                   isinstance_StateSpace sysd = true ->
                   c2d sysc Ts method = Ok sysd).
Proof.
  split.
  - intros e He. unfold c2d. rewrite He. reflexivity.
  - intros sysd Hs Hd. unfold c2d. rewrite Hs. simpl. rewrite Hd.
    rewrite andb_false_r. reflexivity.
Qed.

End C2d_conversion.

(** A sample time that is no number makes [sample_system] raise; a sampler
    that keeps the representation returns a StateSpace, which [c2d] passes
    on. *)
Lemma c2d_keeps_state_space_results_and_exceptions_witness :
  @c2d example_imports (PyLTI (SS ss_ex)) PyNone (PyStr "zoh")
  = Raise (TypeError "Ts")
  /\ @c2d keep_imports (PyLTI (SS ss_ex)) (PyNum 1) (PyStr "zoh")
     = Ok (PyLTI (SS (mkSS A_ex B_ex C_ex D_ex (Some 1)))).
Proof.
  split.
  - apply (proj1 (@c2d_keeps_state_space_results_and_exceptions example_imports
                    (PyLTI (SS ss_ex)) PyNone (PyStr "zoh"))).
    reflexivity.
  - apply (proj2 (@c2d_keeps_state_space_results_and_exceptions keep_imports
                    (PyLTI (SS ss_ex)) (PyNum 1) (PyStr "zoh"))); reflexivity.
Defined.

(** ** dcgain: shape of the gain *)

Lemma wf_matrix_rows (m : matrix) :
  wf_matrix m = true -> Forall (fun r => length r = ncols m) (mrows m).
Proof.
  unfold wf_matrix. intros Hwf. apply Forall_forall. intros r Hr.
  rewrite forallb_forall in Hwf. apply Nat.eqb_eq. apply Hwf. exact Hr.
Qed.

Lemma rows_wf_matrix (c : nat) (rows : list vec) :
  Forall (fun r => length r = c) rows -> wf_matrix (Matrix c rows) = true.
Proof.
  intros Hrows. unfold wf_matrix. simpl. apply forallb_forall. intros r Hr.
  rewrite Forall_forall in Hrows. apply Nat.eqb_eq. apply Hrows. exact Hr.
Qed.

Lemma stretch_same {A : Type} (n : nat) (l : list A) :
  length l = n -> stretch n l = l.
Proof.
  intros Hl. unfold stretch. destruct l as [| x [| y l]]; try reflexivity.
  simpl in Hl. subst n. reflexivity.
Qed.

(** Operands of the same shape are not changed by broadcasting. *)
Lemma broadcast_same (r c : nat) (m : matrix) :
  nrows m = r -> ncols m = c -> wf_matrix m = true ->
  broadcast r c m = mrows m.
Proof.
  intros Hr Hc Hwf. unfold broadcast.
  assert (Hmap : map (stretch c) (mrows m) = mrows m).
  { rewrite <- (map_id (mrows m)) at 2. apply map_ext_in.
    intros row Hrow. apply stretch_same. subst c.
    pose proof (wf_matrix_rows m Hwf) as Hall.
    rewrite Forall_forall in Hall. apply Hall. exact Hrow. }
  rewrite Hmap. apply stretch_same. exact Hr.
Qed.

Lemma map2_length {A B C : Type} (f : A -> B -> C) (l : list A) (l' : list B) :
  length l = length l' -> length (map2 f l l') = length l.
Proof.
  revert l'. induction l as [| x l IH]; intros [| y l'] Hl; simpl in *;
    try reflexivity; try discriminate. rewrite IH; lia.
Qed.

Lemma map2_vsub_rows (c : nat) (l l' : list vec) :
  Forall (fun r => length r = c) l ->
  Forall (fun r => length r = c) l' ->
  Forall (fun r => length r = c) (map2 vsub l l').
Proof.
  intros Hl. revert l'. induction Hl as [| x l Hx Hl IH]; intros l' Hl'.
  - constructor.
  - destruct Hl' as [| y l' Hy Hl']; simpl; constructor.
    + rewrite vsub_length; lia.
    + apply IH. exact Hl'.
Qed.

(** The gain of a system with full rows, written out. *)
Lemma gain_of_rows `{Imports} (sys : StateSpace) (n : nat) (g : matrix) :
  ss_wf n sys ->
  gain_of sys = Ok g ->
  exists x,
    inv (ssA sys) = Ok x
    /\ g = Matrix (ncols (ssD sys))
             (map2 vsub (mrows (ssD sys))
                (map (fun r => lincomb (ncols (ssB sys))
                                 (lincomb n r (mrows x)) (mrows (ssB sys)))
                     (mrows (ssC sys)))).
Proof.
  intros ((Hsq & HB & HC & HD1 & HD2) & HwB & HwC & HwD) Hg.
  destruct (gain_of_ok sys g n Hsq Hg) as (x & cai & caib & Hx & H1 & H2 & H3).
  destruct (inv_ok n _ x Hsq Hx) as (Hxc & Hxr & _).
  exists x. split; [exact Hx |].
  unfold mmul in H1. rewrite HC, Hxr, Nat.eqb_refl in H1. injection H1 as <-.
  unfold mmul in H2. simpl in H2. rewrite Hxc, HB, Nat.eqb_refl in H2.
  injection H2 as <-.
  unfold msub in H3. unfold nrows at 2 in H3. simpl in H3.
  rewrite !length_map in H3. fold (nrows (ssC sys)) in H3.
  rewrite HD1, HD2, !bdim_same in H3. injection H3 as <-.
  rewrite (broadcast_same _ _ (ssD sys) HD1 HD2 HwD).
  rewrite broadcast_same.
  - rewrite HD2. simpl. rewrite map_map. reflexivity.
  - unfold nrows. simpl. rewrite !length_map. reflexivity.
  - reflexivity.
  - apply rows_wf_matrix. apply Forall_forall. intros r Hr.
    apply in_map_iff in Hr. destruct Hr as (u & <- & _).
    apply lincomb_length. apply wf_matrix_rows. exact HwB.
Qed.

Section Dcgain_shape.
Context `{Imports}.

(** X9: the gain of a system with p outputs and m inputs is a p by m matrix
    with full rows: as many rows as C has and as many columns as B has. *)
Theorem dcgain_gain_has_outputs_by_inputs_shape
        (args : list pyobj) (sys : StateSpace) (n : nat) (g : matrix) :
  dcgain_convert args = Ok sys ->
  ss_wf n sys ->
  dcgain args = Ok g ->
  nrows g = nrows (ssC sys)
  /\ ncols g = ncols (ssB sys)
  /\ wf_matrix g = true.
Proof.
  intros Hc Hwf Hg. unfold dcgain in Hg. rewrite Hc in Hg. simpl in Hg.
  destruct (gain_of_rows sys n g Hwf Hg) as (x & _ & ->).
  destruct Hwf as ((Hsq & HB & HC & HD1 & HD2) & HwB & HwC & HwD).
  assert (Hrows : Forall (fun r => length r = ncols (ssD sys))
                    (map (fun r => lincomb (ncols (ssB sys))
                                     (lincomb n r (mrows x)) (mrows (ssB sys)))
                         (mrows (ssC sys)))).
  { apply Forall_forall. intros r Hr. apply in_map_iff in Hr.
    destruct Hr as (u & <- & _). rewrite HD2.
    apply lincomb_length. apply wf_matrix_rows. exact HwB. }
  split; [| split].
  - unfold nrows. simpl. rewrite map2_length.
    + exact HD1.
    + rewrite length_map. exact HD1.
  - simpl. exact HD2.
  - apply rows_wf_matrix. apply map2_vsub_rows;
      [apply wf_matrix_rows; exact HwD | exact Hrows].
Qed.

End Dcgain_shape.

(** The example system has the shape of a state-space system and full rows;
    its gain is 1 by 1. *)
Lemma dcgain_gain_has_outputs_by_inputs_shape_witness :
  nrows (Matrix 1 [[276480 # 331776]]) = nrows (ssC ss_ex)
  /\ ncols (Matrix 1 [[276480 # 331776]]) = ncols (ssB ss_ex)
  /\ wf_matrix (Matrix 1 [[276480 # 331776]]) = true.
Proof.
  apply (@dcgain_gain_has_outputs_by_inputs_shape example_imports
           [PyMat A_ex; PyMat B_ex; PyMat C_ex; PyMat D_ex] ss_ex 2%nat).
  - reflexivity.
  - repeat split; repeat constructor.
  - reflexivity.
Defined.

(** ** dcgain of a system in modal form *)

Lemma dot_nil_r (x : vec) : dot x [] = 0.
Proof. destruct x; reflexivity. Qed.

Lemma nth_diag_row (n i j : nat) (x : Q) :
  nth j (diag_row n i x) 0 = if Nat.eqb j i then x else 0.
Proof.
  unfold diag_row. rewrite nth_zeros_app.
  destruct (Nat.ltb_spec j i) as [Hlt | Hge].
  - destruct (Nat.eqb_spec j i); [lia | reflexivity].
  - destruct (Nat.eqb_spec j i) as [-> | Hne].
    + rewrite Nat.sub_diag. reflexivity.
    + replace (j - i)%nat with (S (j - S i)) by lia. simpl. apply nth_zeros.
Qed.

Lemma diag_row_length (n i : nat) (x : Q) :
  (i < n)%nat -> length (diag_row n i x) = n.
Proof.
  intros Hi. unfold diag_row. rewrite length_app. simpl.
  rewrite !repeat_length. lia.
Qed.

Lemma dot_diag_row (n i : nat) (x : Q) (v : vec) :
  dot (diag_row n i x) v == x * nth i v 0.
Proof.
  unfold diag_row. generalize (n - S i)%nat as k. intros k.
  revert v. induction i as [| i IH]; intros v.
  - destruct v as [| y v]; simpl; [ring |]. rewrite dot_zeros_l. ring.
  - destruct v as [| y v]; simpl; [ring |]. rewrite IH. ring.
Qed.

Lemma nth_map_lt {A : Type} (f : A -> Q) (l : list A) (d : A) (i : nat) :
  (i < length l)%nat -> nth i (map f l) 0 = f (nth i l d).
Proof.
  revert i. induction l as [| x l IH]; intros i Hi; simpl in *; [lia |].
  destruct i as [| i]; [reflexivity | apply IH; lia].
Qed.

Lemma nth_map2_Qdiv (b a : vec) (i : nat) :
  length b = length a -> nth i (map2 Qdiv b a) 0 == nth i b 0 / nth i a 0.
Proof.
  revert a i. induction b as [| y b IH]; intros [| x a] i Hl; simpl in *;
    try discriminate.
  - destruct i; reflexivity.
  - destruct i as [| i]; [reflexivity | apply IH; lia].
Qed.

Lemma nth_map_seq {A : Type} (f : nat -> A) (d : A) (s n i : nat) :
  (i < n)%nat -> nth i (map f (seq s n)) d = f (s + i)%nat.
Proof.
  revert s i. induction n as [| n IH]; intros s i Hi; [lia |].
  destruct i as [| i]; simpl.
  - rewrite Nat.add_0_r. reflexivity.
  - rewrite IH by lia. f_equal. lia.
Qed.

Lemma nth_diag_rows (a : vec) (i : nat) :
  (i < length a)%nat ->
  nth i (mrows (diag a)) [] = diag_row (length a) i (nth i a 0).
Proof.
  intros Hi. unfold diag. simpl. rewrite nth_map_seq by exact Hi. reflexivity.
Qed.

Lemma diag_square (a : vec) : square (length a) (diag a).
Proof.
  unfold square, nrows, diag. simpl.
  rewrite length_map, length_seq. split; [reflexivity |].
  split; [reflexivity |]. apply Forall_forall. intros r Hr.
  apply in_map_iff in Hr. destruct Hr as (i & <- & Hi).
  apply in_seq in Hi. apply diag_row_length. lia.
Qed.

(** Column [j] of a diagonal matrix picks entry [j] of the vector it is
    multiplied with. *)
Lemma dot_select (a x : vec) (j m s : nat) :
  dot x (map (fun i => if Nat.eqb j i then nth i a 0 else 0) (seq s m))
  == if Nat.leb s j && Nat.ltb j (s + m)
     then nth (j - s) x 0 * nth j a 0 else 0.
Proof.
  revert s x. induction m as [| m IH]; intros s x; simpl.
  - rewrite dot_nil_r.
    destruct (Nat.leb_spec s j), (Nat.ltb_spec j (s + 0)); simpl;
      try reflexivity; lia.
  - destruct x as [| x0 x]; simpl.
    + destruct (Nat.leb s j && Nat.ltb j (s + S m)); [| reflexivity].
      destruct (j - s)%nat; ring.
    + rewrite IH.
      destruct (Nat.eqb_spec j s) as [-> | Hne].
      * destruct (Nat.leb_spec (S s) s); [lia |].
        destruct (Nat.leb_spec s s); [| lia].
        destruct (Nat.ltb_spec s (s + S m)); [| lia].
        simpl. rewrite Nat.sub_diag. ring.
      * destruct (Nat.leb_spec (S s) j), (Nat.leb_spec s j),
                 (Nat.ltb_spec j (S s + m)), (Nat.ltb_spec j (s + S m));
          simpl; try lia; try ring.
        replace (j - s)%nat with (S (j - S s)) by lia. ring.
Qed.

Lemma dot_col_diag (a x : vec) (j : nat) :
  (j < length a)%nat ->
  dot x (col j (mrows (diag a))) == nth j x 0 * nth j a 0.
Proof.
  intros Hj. unfold col, diag. simpl. rewrite map_map.
  rewrite (map_ext _ (fun i => if Nat.eqb j i then nth i a 0 else 0))
    by (intros i; apply nth_diag_row).
  rewrite dot_select. simpl.
  destruct (Nat.ltb_spec j (length a)); [| lia].
  rewrite Nat.sub_0_r. reflexivity.
Qed.

Lemma nth_nonzero (a : vec) (i : nat) :
  Forall (fun x => ~ x == 0) a -> (i < length a)%nat -> ~ nth i a 0 == 0.
Proof.
  intros Ha Hi. rewrite Forall_forall in Ha. apply Ha. apply nth_In. exact Hi.
Qed.

Lemma diag_not_singular (a : vec) :
  Forall (fun x => ~ x == 0) a -> ~ singular (diag a).
Proof.
  intros Ha (v & Hlen & Hnz & Hker). apply Hnz.
  assert (Hn : nrows (diag a) = length a) by apply diag_square.
  rewrite Hn in Hlen.
  apply all_zero_nth. intros i Hi. rewrite Hlen in Hi.
  rewrite Forall_forall in Hker.
  assert (Hrow : dot (diag_row (length a) i (nth i a 0)) v == 0).
  { apply Hker. rewrite <- (nth_diag_rows a i Hi). apply nth_In.
    fold (nrows (diag a)). rewrite Hn. exact Hi. }
  rewrite dot_diag_row in Hrow.
  destruct (Qmult_integral _ _ Hrow) as [Hz | Hz]; [| exact Hz].
  exfalso. exact (nth_nonzero a i Ha Hi Hz).
Qed.

Lemma sol_ok_nth (n : nat) (A : list vec) (j : nat) (xs : list vec) (i : nat) :
  sol_ok n A j xs ->
  (i < length xs)%nat ->
  length (nth i xs []) = n
  /\ veq (lincomb n (nth i xs []) A) (unit_vec n (j + i)).
Proof.
  revert j i. induction xs as [| x xs IH]; intros j i Hsol Hi; simpl in *; [lia |].
  destruct Hsol as (Hx & Hunit & Hxs). destruct i as [| i].
  - rewrite Nat.add_0_r. split; assumption.
  - replace (j + S i)%nat with (S j + i)%nat by lia. apply IH; [exact Hxs | lia].
Qed.

(** Row [i] of the inverse of a diagonal matrix, times a vector. *)
Lemma inv_diag_row_dot (a b : vec) (x : matrix) (i : nat) :
  Forall (fun y => ~ y == 0) a ->
  inv (diag a) = Ok x ->
  (i < length a)%nat ->
  dot (nth i (mrows x) []) b == nth i b 0 / nth i a 0.
Proof.
  intros Ha Hx Hi.
  destruct (inv_ok _ _ x (diag_square a) Hx) as (_ & Hr & Hsol).
  unfold nrows in Hr.
  destruct (sol_ok_nth _ _ 0 _ i Hsol ltac:(lia)) as (Hlen & Hunit).
  assert (Hrow : veq (nth i (mrows x) []) (diag_row (length a) i (/ nth i a 0))).
  { apply veq_ext.
    - rewrite Hlen, diag_row_length by exact Hi. reflexivity.
    - intros j Hj. rewrite Hlen in Hj.
      pose proof (veq_nth _ _ j Hunit) as He.
      destruct (diag_square a) as (_ & _ & Hw).
      rewrite (nth_lincomb _ _ _ j Hw), dot_col_diag in He by exact Hj.
      rewrite nth_unit_vec in He. simpl in He.
      rewrite nth_diag_row.
      pose proof (nth_nonzero a j Ha Hj) as Hnz.
      destruct (Nat.eqb_spec j i) as [-> | Hne].
      + destruct (Nat.ltb_spec i (length a)); [| lia].
        apply (Qmult_inj_r _ _ (nth i a 0) Hnz). rewrite He. field. exact Hnz.
      + destruct (Qmult_integral _ _ He) as [Hz | Hz];
          [exact Hz | contradiction]. }
  rewrite (dot_veq _ _ b b Hrow (veq_refl b)), dot_diag_row.
  field. exact (nth_nonzero a i Ha Hi).
Qed.

Section Dcgain_modal.
Context `{Imports}.

(** X11: for a SISO system in modal form, with poles [a_i] none of which is
    zero, input weights [b_i], output weights [c_i] and feedthrough [d],
    [dcgain] returns [d - sum_i c_i * b_i / a_i]. *)
Theorem dcgain_modal_form (a b c : vec) (d : Q) (dt : option Q) :
  length b = length a ->
  length c = length a ->
  Forall (fun x => ~ x == 0) a ->
  ss [PyMat (diag a); PyMat (column b); PyMat (row_matrix c); PyMat (scalar d)]
  = Ok (mkSS (diag a) (column b) (row_matrix c) (scalar d) dt) ->
  exists q,
    dcgain [PyMat (diag a); PyMat (column b); PyMat (row_matrix c);
            PyMat (scalar d)]
    = Ok (Matrix 1 [[q]])
    /\ q == d - dot c (map2 Qdiv b a).
Proof.
  intros Hb Hc Ha Hss.
  set (sys := mkSS (diag a) (column b) (row_matrix c) (scalar d) dt).
  assert (Hwf : ss_wf (length a) sys).
  { split; [split; [apply diag_square |] |].
    - unfold nrows. simpl. rewrite length_map.
      repeat split; [exact Hb | exact Hc].
    - split; [| split].
      + apply rows_wf_matrix. apply Forall_forall. intros r Hr.
        apply in_map_iff in Hr. destruct Hr as (y & <- & _). reflexivity.
      + apply rows_wf_matrix. repeat constructor.
      + reflexivity. }
  destruct (gain_of_returns sys _ (proj1 Hwf) (diag_not_singular a Ha))
    as (g & Hg).
  destruct (gain_of_rows sys _ g Hwf Hg) as (x & Hx & Hrows).
  simpl in Hx, Hrows.
  destruct (inv_ok _ _ x (diag_square a) Hx) as (_ & Hr & Hsol).
  unfold nrows in Hr.
  pose proof (sol_ok_width _ _ _ _ Hsol) as Hxw.
  set (u := lincomb (length a) c (mrows x)) in *.
  set (Brows := map (fun y : Q => [y]) b) in *.
  assert (HBw : Forall (fun r => length r = 1%nat) Brows).
  { apply Forall_forall. intros r0 Hr0. apply in_map_iff in Hr0.
    destruct Hr0 as (y & <- & _). reflexivity. }
  pose proof (lincomb_length 1 Brows u HBw) as Hl.
  destruct (lincomb 1 u Brows) as [| z [| z' l]] eqn:Hz; try discriminate Hl.
  exists (d - z). split.
  - unfold dcgain, dcgain_convert. rewrite Hss. simpl.
    fold sys. rewrite Hg, Hrows. reflexivity.
  - assert (Hzv : z == dot u b).
    { change z with (nth 0 [z] 0). rewrite <- Hz.
      rewrite (nth_lincomb 1 Brows u 0 HBw). unfold col, Brows.
      rewrite map_map. simpl. rewrite map_id. reflexivity. }
    rewrite Hzv. unfold u.
    rewrite (dot_lincomb _ _ c b Hxw).
    assert (Hv : veq (map (fun r => dot r b) (mrows x)) (map2 Qdiv b a)).
    { apply veq_ext.
      - rewrite length_map, map2_length by exact Hb. lia.
      - intros i Hi. rewrite length_map, Hr in Hi.
        rewrite (nth_map_lt (fun r : vec => dot r b) (mrows x) [] i) by lia.
        rewrite (inv_diag_row_dot a b x i Ha Hx Hi).
        rewrite nth_map2_Qdiv by exact Hb. reflexivity. }
    rewrite (dot_veq _ _ _ _ (veq_refl c) Hv). reflexivity.
Qed.
End Dcgain_modal.

(** The example system is in modal form, with poles -2 and -3: its gain is
    0 - (1 * 1 / -2 + 1 * 1 / -3) = 5/6. *)
Lemma dcgain_modal_form_witness :
  exists q,
    @dcgain example_imports
      [PyMat (diag [-2; -3]); PyMat (column [1; 1]); PyMat (row_matrix [1; 1]);
       PyMat (scalar 0)]
    = Ok (Matrix 1 [[q]])
    /\ q == 0 - dot [1; 1] (map2 Qdiv [1; 1] [-2; -3]).
Proof.
  apply (@dcgain_modal_form example_imports [-2; -3] [1; 1] [1; 1] 0 None).
  - reflexivity.
  - reflexivity.
  - repeat constructor; intros Hq; discriminate Hq.
  - reflexivity.
Defined.
